(** * The fee engine of [lib/stripe.ts] and its two call sites

    The engine is plain arithmetic on JavaScript numbers.  A JavaScript
    number is an IEEE 754 binary64 value, which is what Rocq's primitive
    [float] is, so the functions below are the source's, operator by
    operator, on [float]: [+], [-], [*] and [/] round to nearest even,
    [0 / 0] is [nan], and comparisons with [nan] are false.

    Around the engine stand the environment helpers of [lib/env-utils.ts],
    the fee percentage and the Stripe client [lib/stripe.ts] builds from
    them, [requireAdmin] and [getRole], and the two routes in full.  A
    route reads the outside world (the session, the request, the rows its
    queries return, Stripe's answers) from a record, returns as soon as it
    has answered, and logs each call that writes, in order. *)

From Stdlib Require Import ZArith Bool List Lia.
From Stdlib Require Import QArith Qpower Qround Lqa.
From Stdlib Require Import Floats Uint63.
From Stdlib Require String Ascii.

Set Warnings "-inexact-float".
Local Open Scope float_scope.

(** ** The fragment of JavaScript's [Number] and [Math] the engine uses *)

Module JS.

Definition number := float.

(** The number whose value is the integer [z] (exact for |z| <= 2^53). *)
Definition of_Z (z : Z) : number :=
  match z with
  | Z0 => PrimFloat.zero
  | Zpos _ => of_uint63 (Uint63.of_Z z)
  | Zneg p => - of_uint63 (Uint63.of_Z (Zpos p))
  end.

(** [Math.round(x)]: the integer closest to [x], ties towards +Infinity;
    [x] itself when it is integral, infinite, a zero or NaN; [-0] when
    [-0.5 <= x < 0].  A finite [x] is [(-1)^s * m * 2^e]; for [e < 0] the
    result is [floor (x + 1/2)], computed exactly on integers. *)
Definition Math_round (x : number) : number :=
  match Prim2SF x with
  | S754_finite s m e =>
      if (0 <=? e)%Z then x
      else
        let r := Z.shiftr (cond_Zopp s (Zpos m) + 2 ^ (- e - 1)) (- e) in
        if (r =? 0)%Z then (if s then PrimFloat.neg_zero else PrimFloat.zero) else of_Z r
  | _ => x
  end.

(** [Number.isInteger(x)]. *)
Definition Number_isInteger (x : number) : bool :=
  match Prim2SF x with
  | S754_zero _ => true
  | S754_finite _ m e => (0 <=? e)%Z || (Zpos m mod 2 ^ (- e) =? 0)%Z
  | _ => false
  end.

(** [Number.isNaN(x)]. *)
Definition Number_isNaN (x : number) : bool := PrimFloat.is_nan x.

(** Truthiness of a number: every number but [0], [-0] and [NaN]. *)
Definition truthy (x : number) : bool := negb (PrimFloat.is_zero x || PrimFloat.is_nan x).

(** How a call completes: normally with a value, or abruptly with a thrown
    error. *)
Inductive completion (E A : Type) : Type :=
| Normal (v : A)
| Throw (e : E).
Arguments Normal {E A} v.
Arguments Throw {E A} e.

End JS.

Import JS.

(** ** [lib/stripe.ts] *)

Module Stripe.

Record FeeSplit : Type := mkFeeSplit {
  platformFee : number;
  instructorAmount : number
}.

(** Standard Stripe processing fee in the US. *)
Definition STRIPE_PERCENTAGE_FEE : number := 2.9.
Definition STRIPE_FIXED_FEE_CENTS : number := 30.

(** [STRIPE_APPLICATION_FEE_PERCENT] of the environment, 15 when unset. *)
Definition DEFAULT_PLATFORM_FEE_PERCENTAGE : number := 15.

Section Engine.

(** [PLATFORM_FEE_PERCENTAGE] is read from the environment at start-up. *)
Variable PLATFORM_FEE_PERCENTAGE : number.

Definition INSTRUCTOR_PERCENTAGE : number := 100 - PLATFORM_FEE_PERCENTAGE.

(** [calculateFees], statement by statement. *)
Definition calculateFees (amount : number) : FeeSplit :=
  let stripeFeePercentage := Math_round ((amount * STRIPE_PERCENTAGE_FEE) / 100) in
  let totalStripeFee := stripeFeePercentage + STRIPE_FIXED_FEE_CENTS in
  let amountAfterStripeFee := amount - totalStripeFee in
  let basePrice :=
    Math_round (amount / (1 + STRIPE_PERCENTAGE_FEE / 100) - STRIPE_FIXED_FEE_CENTS) in
  let basePlatformFee := Math_round ((basePrice * PLATFORM_FEE_PERCENTAGE) / 100) in
  let platformProportion := basePlatformFee / basePrice in
  let platformShareOfStripeFee := Math_round (totalStripeFee * platformProportion) in
  let platformFeeWithStripeCosts := basePlatformFee + platformShareOfStripeFee in
  let instructorAmount := amount - platformFeeWithStripeCosts in
  {| platformFee := platformFeeWithStripeCosts;
     instructorAmount := instructorAmount |}.

(** Its intermediate values as functions of the amount, under the names
    the source gives them. *)
Definition stripeFeePercentage (amount : number) : number :=
  Math_round ((amount * STRIPE_PERCENTAGE_FEE) / 100).

Definition totalStripeFee (amount : number) : number :=
  stripeFeePercentage amount + STRIPE_FIXED_FEE_CENTS.

Definition basePrice (amount : number) : number :=
  Math_round (amount / (1 + STRIPE_PERCENTAGE_FEE / 100) - STRIPE_FIXED_FEE_CENTS).

Definition basePlatformFee (amount : number) : number :=
  Math_round ((basePrice amount * PLATFORM_FEE_PERCENTAGE) / 100).

Definition platformProportion (amount : number) : number :=
  basePlatformFee amount / basePrice amount.

Definition platformShareOfStripeFee (amount : number) : number :=
  Math_round (totalStripeFee amount * platformProportion amount).

End Engine.

Definition calculatePriceWithStripeFees (basePrice : number) : number :=
  let priceWithFees :=
    (basePrice + STRIPE_FIXED_FEE_CENTS) / (1 - STRIPE_PERCENTAGE_FEE / 100) in
  Math_round priceWithFees.

(** Neither function has a [throw] statement or calls anything that throws:
    arithmetic on numbers and [Math.round] always complete normally. *)
Inductive EngineError : Type := InvalidAmount.

Definition calculateFees_completion (pct amount : number)
  : completion EngineError FeeSplit :=
  Normal (calculateFees pct amount).

Definition calculatePriceWithStripeFees_completion (basePrice : number)
  : completion EngineError number :=
  Normal (calculatePriceWithStripeFees basePrice).

(** The split the other way round, as the data-model section of the
    specification words it: the counterparty share is rounded on its own,
    by the formula of the platform share with [INSTRUCTOR_PERCENTAGE], and
    the platform share is what is left of the amount. *)
Definition instructorShareRounded (pct amount : number) : number :=
  let baseInstructorAmount :=
    Math_round ((basePrice amount * INSTRUCTOR_PERCENTAGE pct) / 100) in
  let instructorProportion := baseInstructorAmount / basePrice amount in
  baseInstructorAmount + Math_round (totalStripeFee amount * instructorProportion).

Definition splitFees_platform_absorbs (pct amount : number) : FeeSplit :=
  {| platformFee := amount - instructorShareRounded pct amount;
     instructorAmount := instructorShareRounded pct amount |}.

End Stripe.

Import Stripe.

(** ** [app/api/checkout-lesson/route.ts], the paid branch of [POST] *)

Module Checkout.

(** What the route hands to Stripe: the unit amount of the price it
    creates for the line item, the application fee of the payment intent,
    and the two amounts it writes into the session's metadata. *)
Record SessionParams : Type := mkSessionParams {
  unit_amount : number;
  application_fee_amount : number;
  metadata_instructorPayoutAmount : number;
  metadata_platformFee : number
}.

Section Route.

Variable PLATFORM_FEE_PERCENTAGE : number.

(** [price] is the lesson's price in dollars, as the request carries it. *)
Definition priceInCents (price : number) : number := Math_round (price * 100).

Definition priceWithFeesInCents (price : number) : number :=
  let priceWithFees := calculatePriceWithStripeFees (price * 100) / 100 in
  Math_round (priceWithFees * 100).

Definition sessionParams (price : number) : SessionParams :=
  let fees := calculateFees PLATFORM_FEE_PERCENTAGE (priceInCents price) in
  {| unit_amount := priceWithFeesInCents price;
     application_fee_amount := platformFee fees;
     metadata_instructorPayoutAmount := instructorAmount fees;
     metadata_platformFee := platformFee fees / 100 |}.

End Route.

End Checkout.

(** ** [app/api/verify-lesson-purchase/route.ts], the purchase record of [GET] *)

Module Verify.

(** The fields of the retrieved checkout session the route reads:
    [amount_total] ([None] for [null]) and the metadata entry
    [instructorPayoutAmount] ([None] when absent; [Some n] when it is the
    decimal rendering of [n], which [parseFloat] reads back as [n]). *)
Record CheckoutSession : Type := mkCheckoutSession {
  amount_total : option number;
  instructorPayoutAmount_meta : option number
}.

Record PurchaseData : Type := mkPurchaseData {
  amount : number;
  instructor_payout_amount : option number;
  platform_fee_amount : number
}.

Section Route.

Variable PLATFORM_FEE_PERCENTAGE : number.

(** [checkoutSession.amount_total || 0]. *)
Definition amountInCents (s : CheckoutSession) : number :=
  match amount_total s with
  | Some a => if truthy a then a else 0
  | None => 0
  end.

Definition purchaseData (s : CheckoutSession) : PurchaseData :=
  let instructorPayoutAmount :=
    match instructorPayoutAmount_meta s with
    | Some n => Some (n / 100)
    | None =>
        match amount_total s with
        | Some a =>
            if truthy a
            then Some (instructorAmount (calculateFees PLATFORM_FEE_PERCENTAGE a) / 100)
            else None
        | None => None
        end
    end in
  let fees := calculateFees PLATFORM_FEE_PERCENTAGE (amountInCents s) in
  {| amount := match amount_total s with
               | Some a => if truthy a then a / 100 else 0
               | None => 0
               end;
     instructor_payout_amount := instructorPayoutAmount;
     platform_fee_amount := platformFee fees / 100 |}.

(** The split the route recomputes from the session's total. *)
Definition recomputedSplit (s : CheckoutSession) : FeeSplit :=
  calculateFees PLATFORM_FEE_PERCENTAGE (amountInCents s).

End Route.

End Verify.

(** ** Checking a range of amounts *)

Module Sweep.

(** What the conservation and non-negativity claims ask of one amount, as
    JavaScript would test it, and a test run over [z, z + n). *)
Definition split_ok (pct amount : number) : bool :=
  let r := calculateFees pct amount in
  (platformFee r + instructorAmount r =? amount)
  && (0 <=? platformFee r) && (0 <=? instructorAmount r).

Fixpoint all_from (p : Z -> bool) (z : Z) (n : nat) : bool :=
  match n with
  | O => true
  | S k => p z && all_from p (z + 1) k
  end.

End Sweep.

Import Sweep.

(** * What surrounds the engine: configuration, access control and the two routes *)

(** ** [lib/env-utils.ts] *)

Module Env.

Import Stdlib.Strings.String.
Local Open Scope string_scope.

(** [process.env]: the value of a variable, [None] for [undefined].
    Strings are sequences of code units below 256. *)
Definition ProcessEnv : Type := String.string -> option String.string.

(** Truthiness of a [string | undefined]: defined and not empty. *)
Definition truthy_str (v : option String.string) : bool :=
  match v with
  | Some s => negb (String.eqb s "")
  | None => false
  end.

(** [a || b] on strings. *)
Definition or_else (v : option String.string) (d : String.string) : String.string :=
  match v with
  | Some s => if String.eqb s "" then d else s
  | None => d
  end.

(** [REQUIRED_ENV_VARS], keys in the order of the object literal. *)
Definition REQUIRED_ENV_VARS : list (String.string * String.string) :=
  ("NEXT_PUBLIC_SUPABASE_URL", "URL of your Supabase project")
  :: ("NEXT_PUBLIC_SUPABASE_ANON_KEY", "Anonymous key for Supabase client")
  :: ("NEXT_PUBLIC_STRIPE_PUBLISHABLE_KEY", "Publishable key for Stripe client")
  :: ("STRIPE_SECRET_KEY", "Secret key for Stripe API")
  :: ("NEXT_PUBLIC_SITE_URL", "Base URL of your application")
  :: nil.

(** An entry of [OPTIONAL_ENV_VARS]: its [default] is a string or a
    function of the environment. *)
Inductive OptionalDefault : Type :=
| Literal (s : String.string)
| Computed (f : ProcessEnv -> String.string).

(** A template literal prints [undefined] for a missing value. *)
Definition interpolate (v : option String.string) : String.string :=
  match v with
  | Some s => s
  | None => "undefined"
  end.

Definition OPTIONAL_ENV_VARS : list (String.string * OptionalDefault) :=
  ("STRIPE_APPLICATION_FEE_PERCENT", Literal "15")
  :: ("NEXT_PUBLIC_STRIPE_CONNECT_REDIRECT_URL",
      Computed (fun env =>
        interpolate (env "NEXT_PUBLIC_SITE_URL") ++ "/dashboard/stripe-connect/success"))
  :: ("NODE_ENV", Literal "development")
  :: nil.

(** The property names every object literal inherits from
    [Object.prototype]: looking one up in [OPTIONAL_ENV_VARS] finds a value
    that is truthy and has no [default]. *)
Definition Object_prototype_keys : list String.string :=
  "constructor" :: "__defineGetter__" :: "__defineSetter__" :: "hasOwnProperty"
  :: "__lookupGetter__" :: "__lookupSetter__" :: "isPrototypeOf"
  :: "propertyIsEnumerable" :: "toString" :: "valueOf" :: "__proto__"
  :: "toLocaleString" :: nil.

Inductive Lookup : Type :=
| Own (d : OptionalDefault)
| Inherited
| Absent.

Fixpoint assoc {A : Type} (key : String.string) (l : list (String.string * A)) : option A :=
  match l with
  | nil => None
  | (k, v) :: r => if String.eqb k key then Some v else assoc key r
  end.

(** [OPTIONAL_ENV_VARS[key]]. *)
Definition lookup_optional (key : String.string) : Lookup :=
  match assoc key OPTIONAL_ENV_VARS with
  | Some d => Own d
  | None =>
      if existsb (String.eqb key) Object_prototype_keys then Inherited else Absent
  end.

Definition getEnv (env : ProcessEnv) (key : String.string)
                  (fallback : option String.string) : option String.string :=
  let value := env key in
  if truthy_str value then value
  else
    match lookup_optional key with
    | Own (Computed f) => Some (f env)
    | Own (Literal s) => Some s
    | Inherited => None
    | Absent => fallback
    end.

Record Validation : Type := mkValidation {
  valid : bool;
  missing : list String.string;
  message : String.string
}.

Definition validateEnv (env : ProcessEnv) : Validation :=
  let missing :=
    filter (fun envVar => negb (truthy_str (env envVar))) (map fst REQUIRED_ENV_VARS) in
  let valid := (List.length missing =? 0)%nat in
  let message :=
    if valid then "All required environment variables are set"
    else "Missing required environment variables: " ++ String.concat ", " missing in
  {| valid := valid; missing := missing; message := message |}.

Definition isProduction (env : ProcessEnv) : bool :=
  match env "NODE_ENV" with
  | Some s => String.eqb s "production"
  | None => false
  end.

Definition isDevelopment (env : ProcessEnv) : bool :=
  match env "NODE_ENV" with
  | Some s => String.eqb s "development" || negb (truthy_str (Some s))
  | None => true
  end.

Definition getEnvironment (env : ProcessEnv) : String.string :=
  or_else (env "NODE_ENV") "development".

(** [typeof window === 'undefined'] is a fact about where the code runs:
    [hasWindow] is false on the server. *)
Definition isBuildTime (hasWindow : bool) (env : ProcessEnv) : bool :=
  negb hasWindow
  && (negb (truthy_str (env "NEXT_PUBLIC_SUPABASE_URL"))
      || negb (truthy_str (env "NEXT_PUBLIC_SUPABASE_ANON_KEY"))).

Definition hasRequiredEnvVars (env : ProcessEnv) : bool :=
  truthy_str (env "NEXT_PUBLIC_SUPABASE_URL")
  && truthy_str (env "NEXT_PUBLIC_SUPABASE_ANON_KEY").

End Env.

(** ** The configured fee percentage and the Stripe client of [lib/stripe.ts] *)

Module StripeConfig.

Import Stdlib.Strings.String Stdlib.Strings.Ascii Env.
Local Open Scope string_scope.

(** [parseInt(s, 10)]: leading white space is skipped, then an optional
    sign, then the longest run of decimal digits is read; no digit gives
    [NaN]. *)
Definition is_white_space (c : Ascii.ascii) : bool :=
  let n := Ascii.N_of_ascii c in
  (N.eqb n 9 || N.eqb n 10 || N.eqb n 11 || N.eqb n 12 || N.eqb n 13
   || N.eqb n 32 || N.eqb n 160)%bool.

Fixpoint trim_start (s : String.string) : String.string :=
  match s with
  | String.String c r => if is_white_space c then trim_start r else s
  | String.EmptyString => s
  end.

Definition digit_value (c : Ascii.ascii) : option Z :=
  let n := Z.of_N (Ascii.N_of_ascii c) in
  if ((48 <=? n) && (n <=? 57))%Z then Some (n - 48)%Z else None.

(** The value of the leading digits of [s] after the digits already read. *)
Fixpoint digits_prefix (s : String.string) (acc : option Z) : option Z :=
  match s with
  | String.String c r =>
      match digit_value c with
      | Some d =>
          digits_prefix r (Some (10 * match acc with Some a => a | None => 0 end + d)%Z)
      | None => acc
      end
  | String.EmptyString => acc
  end.

(** The sign and the rest of a trimmed string. *)
Definition split_sign (s : String.string) : bool * String.string :=
  match s with
  | String.String c r =>
      if Ascii.eqb c "-" then (true, r)
      else if Ascii.eqb c "+" then (false, r)
      else (false, s)
  | String.EmptyString => (false, s)
  end.

(** The number nearest to a non-negative integer. *)
Definition Number_of_Z (n : Z) : number :=
  SF2Prim (binary_normalize prec emax n 0 false).

Definition parseInt10 (s : String.string) : number :=
  let '(negative, rest) := split_sign (trim_start s) in
  match digits_prefix rest None with
  | None => nan
  | Some n => if negative then (- Number_of_Z n)%float else Number_of_Z n
  end.

(** [parseInt(getEnv('STRIPE_APPLICATION_FEE_PERCENT', '15') || '15', 10)]. *)
Definition PLATFORM_FEE_PERCENTAGE (env : ProcessEnv) : number :=
  parseInt10 (or_else (getEnv env "STRIPE_APPLICATION_FEE_PERCENT" (Some "15")) "15").

(** The module-level [stripe] client: created with the secret key when
    there is one, with a placeholder key otherwise. *)
Record StripeClient : Type := mkStripeClient { apiKey : String.string }.

Definition initStripe (env : ProcessEnv) : option StripeClient :=
  if truthy_str (env "STRIPE_SECRET_KEY")
  then Some {| apiKey := interpolate (env "STRIPE_SECRET_KEY") |}
  else Some {| apiKey := "sk_test_placeholder" |}.

(** [stripe !== null]. *)
Definition isStripeInitialized (stripe : option StripeClient) : bool :=
  match stripe with
  | Some _ => true
  | None => false
  end.

End StripeConfig.

(** ** [lib/admin-auth] of the staged [lib/stripe.ts] bundle: [requireAdmin], [getRole] *)

Module Auth.

Import Stdlib.Strings.String Env.
Local Open Scope string_scope.

Record User : Type := mkUser { id : String.string; email : option String.string }.

Record AdminContext : Type := mkAdminContext { user : User; role : option String.string }.

(** [redirect(path)] of [next/navigation] never returns: the call ends
    there. *)
Inductive Outcome (A : Type) : Type :=
| Returns (a : A)
| Redirects (path : String.string).
Arguments Returns {A} a.
Arguments Redirects {A} path.

(** The answer of [from("users").select("role").eq("id", ..).single()]:
    the row's [role] ([None] inside for [null]), or no row; and whether an
    error came with it. *)
Record RoleQuery : Type := mkRoleQuery {
  data : option (option String.string);
  error : bool
}.

Definition requireAdmin (hasWindow : bool) (env : ProcessEnv)
                        (session : option User) (q : RoleQuery)
  : Outcome AdminContext :=
  if isBuildTime hasWindow env then
    Returns {| user := {| id := "build-time-user-id"; email := Some "build@example.com" |};
               role := Some "admin" |}
  else
    match session with
    | None => Redirects "/auth/sign-in"
    | Some u =>
        match error q, data q with
        | false, Some (Some r) =>
            if String.eqb r "admin"
            then Returns {| user := u; role := Some r |}
            else Redirects "/dashboard"
        | _, _ => Redirects "/dashboard"
        end
    end.

Definition getRole (hasWindow : bool) (env : ProcessEnv)
                   (session : option User) (q : RoleQuery)
  : option String.string :=
  if isBuildTime hasWindow env then Some "user"
  else
    match session with
    | None => None
    | Some _ =>
        match error q, data q with
        | false, Some r => r
        | _, _ => None
        end
    end.

End Auth.

(** ** Early return and the log of calls that write *)

Module Flow.

(** A route either goes on with a value or has answered. *)
Inductive Step (R A : Type) : Type :=
| Next (a : A)
| Done (r : R).
Arguments Next {R A} a.
Arguments Done {R A} r.

Definition M (E R A : Type) : Type := list E -> Step R A * list E.

Definition ret {E R A : Type} (a : A) : M E R A := fun log => (Next a, log).

Definition bind {E R A B : Type} (m : M E R A) (k : A -> M E R B) : M E R B :=
  fun log =>
    match m log with
    | (Next a, log') => k a log'
    | (Done r, log') => (Done r, log')
    end.

(** Answer now: what follows is not run. *)
Definition respond {E R A : Type} (r : R) : M E R A := fun log => (Done r, log).

(** Issue a call that writes. *)
Definition emit {E R : Type} (e : E) : M E R unit := fun log => (Next tt, log ++ e :: nil).

Definition run {E R : Type} (m : M E R R) : R * list E :=
  match m nil with
  | (Next r, log) => (r, log)
  | (Done r, log) => (r, log)
  end.

(** What an awaited call to an external service gives: a value, or a
    thrown error with its message. *)
Inductive Result (A : Type) : Type :=
| Ok (a : A)
| Throws (message : String.string).
Arguments Ok {A} a.
Arguments Throws {A} message.

End Flow.

(** ** [app/api/checkout-lesson/route.ts]: the whole of [POST] *)

Module CheckoutRoute.

Import Stdlib.Strings.String Env Flow.
Local Open Scope string_scope.

Notation "x <- c ;; k" := (bind c (fun x => k))
  (at level 61, c at next level, right associativity).
Notation "c ;;; k" := (bind c (fun _ => k))
  (at level 61, right associativity).

Record Lesson : Type := mkLesson {
  stripe_product_id : option String.string;
  stripe_price_id : option String.string;
  instructor_id : option String.string;
  lesson_price : option number
}.

Record InstructorProfile : Type := mkInstructorProfile {
  stripe_account_id : option String.string;
  stripe_account_enabled : bool
}.

(** The request body; [price] is a JSON number, [isFree] the truthiness of
    the field. *)
Record Body : Type := mkBody {
  lessonId : option String.string;
  price : number;
  title : String.string;
  isFree : bool
}.

Inductive Payload : Type :=
| ErrorBody (message : String.string)
| SuccessBody (lessonId : String.string)
| UrlBody (url : option String.string).

Record Response : Type := mkResponse { status : Z; payload : Payload }.

Record PurchaseRow : Type := mkPurchaseRow {
  user_id : String.string;
  lesson_id : String.string;
  stripe_payment_id : String.string;
  amount : number;
  instructor_payout_amount : number;
  platform_fee_amount : number;
  payout_status : String.string;
  is_free : bool;
  with_video_id : bool
}.

Record SessionRequest : Type := mkSessionRequest {
  line_item_price : String.string;
  success_url : String.string;
  cancel_url : String.string;
  meta_lessonId : String.string;
  meta_userId : String.string;
  meta_instructorId : String.string;
  meta_productId : String.string;
  meta_priceId : String.string;
  meta_originalPrice : number;
  meta_instructorPayoutAmount : number;
  meta_platformFee : number;
  application_fee_amount : number;
  transfer_destination : String.string
}.

(** The calls that write, in the order they are issued. *)
Inductive Effect : Type :=
| StripeProductCreate (name description : String.string)
| StripePriceCreate (product : String.string) (unit_amount : number)
| LessonUpdate (lesson product price : String.string)
| PurchaseInsert (row : PurchaseRow)
| StripeSessionCreate (request : SessionRequest).

(** Everything the route reads from outside: the session, the body, the
    rows the queries return, the clock, and what Stripe answers. *)
Record World : Type := mkWorld {
  env : ProcessEnv;
  session_user : option String.string;
  body : Result Body;
  lesson : option Lesson;
  profile : option InstructorProfile;
  existing_purchase : bool;
  column_exists : bool;
  insert_error : option String.string;
  now : String.string;
  new_product : Result String.string;
  new_price : Result String.string;
  update_error : bool;
  checkout_product : Result String.string;
  checkout_price : Result String.string;
  checkout_session : Result (option String.string)
}.

Definition R (A : Type) : Type := M Effect Response A.

Definition json {A : Type} (status : Z) (p : Payload) : R A :=
  respond {| status := status; payload := p |}.

(** A thrown error reaches the [catch] of [POST]. *)
Definition throw {A : Type} (message : String.string) : R A :=
  json 500 (ErrorBody (if String.eqb message "" then "Failed to create checkout session"
                       else message)).

Definition await {A : Type} (r : Result A) : R A :=
  match r with
  | Ok a => ret a
  | Throws m => throw m
  end.

(** [parseFloat(String(x)) || 0] for a number [x]. *)
Definition price_or_zero (x : option number) : number :=
  match x with
  | Some p => if truthy p then p else 0
  | None => 0
  end.

(** [getInstructorStripeAccountId]. *)
Definition getInstructorStripeAccountId (w : World) : option String.string * bool :=
  match profile w with
  | Some p => (stripe_account_id p, stripe_account_enabled p)
  | None => (None, false)
  end.

(** [createStripeProduct]. *)
Definition createStripeProduct (w : World) (name description : String.string)
                               (price : number) : R (String.string * String.string) :=
  emit (StripeProductCreate name description) ;;;
  product <- await (new_product w) ;;
  emit (StripePriceCreate product price) ;;;
  priceObj <- await (new_price w) ;;
  ret (product, priceObj).

(** [recordFreeLessonAccess]. *)
Definition purchaseData (w : World) (userId lessonId : String.string) : PurchaseRow :=
  {| user_id := userId;
     lesson_id := lessonId;
     stripe_payment_id := "free_" ++ userId ++ "_" ++ lessonId ++ "_" ++ now w;
     amount := 0;
     instructor_payout_amount := 0;
     platform_fee_amount := 0;
     payout_status := "free_lesson";
     is_free := true;
     with_video_id := column_exists w |}.

Definition recordFreeLessonAccess (w : World) (userId lessonId : String.string)
  : R String.string :=
  if existing_purchase w then ret lessonId
  else
    emit (PurchaseInsert (purchaseData w userId lessonId)) ;;;
    match insert_error w with
    | Some m => throw ("Failed to record free lesson access: " ++ m)
    | None => ret lessonId
    end.

Definition baseUrl (env : ProcessEnv) : String.string :=
  if truthy_str (env "NEXT_PUBLIC_APP_URL") then interpolate (env "NEXT_PUBLIC_APP_URL")
  else if isProduction env then "https://teach-niche.com"
  else if truthy_str (env "VERCEL_URL") then "https://" ++ interpolate (env "VERCEL_URL")
  else "http://localhost:3000".

Definition price_mismatch (lessonPrice requestPrice : number) : bool :=
  (0.01 <? abs (lessonPrice - requestPrice))%float.

Definition POST (pct : number) (w : World) : R Response :=
  match session_user w with
  | None => json 401 (ErrorBody "You must be logged in to purchase a lesson")
  | Some userId =>
  b <- await (body w) ;;
  match lessonId b with
  | None => json 400 (ErrorBody "Missing required fields")
  | Some lessonId =>
  if String.eqb lessonId "" then json 400 (ErrorBody "Missing required fields") else
  match lesson w with
  | None => json 404 (ErrorBody "Lesson not found")
  | Some lesson =>
  let lessonPrice := price_or_zero (lesson_price lesson) in
  let requestPrice := price_or_zero (Some (price b)) in
  if price_mismatch lessonPrice requestPrice
  then json 400 (ErrorBody "Price mismatch. Please refresh and try again.")
  else
  let instructorId := or_else (instructor_id lesson) "" in
  let '(accountId, isAccountEnabled) := getInstructorStripeAccountId w in
  if (lessonPrice =? 0)%float || isFree b then
    if negb (truthy_str accountId)
    then json 400 (ErrorBody "Instructor payment account not set up")
    else
      result <- recordFreeLessonAccess w userId lessonId ;;
      json 200 (SuccessBody result)
  else
    if negb (truthy_str accountId)
    then json 400 (ErrorBody "Instructor payment account not set up")
    else if negb isAccountEnabled
    then json 400 (ErrorBody "Instructor payment account is not fully enabled")
    else
      ids <-
        (if negb (truthy_str (stripe_product_id lesson))
            || negb (truthy_str (stripe_price_id lesson))
         then
           created <- createStripeProduct w (title b) ("Lesson: " ++ title b)
                        (Checkout.priceInCents (price b)) ;;
           (if String.eqb (fst created) "" || String.eqb (snd created) ""
            then throw "Failed to create Stripe product and price"
            else
              emit (LessonUpdate lessonId (fst created) (snd created)) ;;;
              if update_error w
              then throw "Failed to update lesson with Stripe product information"
              else ret created)
         else ret (interpolate (stripe_product_id lesson),
                   interpolate (stripe_price_id lesson))) ;;
      let p := Checkout.sessionParams pct (price b) in
      emit (StripeProductCreate (title b) (title b ++ " (includes processing fees)")) ;;;
      checkoutProduct <- await (checkout_product w) ;;
      emit (StripePriceCreate checkoutProduct (Checkout.unit_amount p)) ;;;
      checkoutPrice <- await (checkout_price w) ;;
      emit (StripeSessionCreate
              {| line_item_price := checkoutPrice;
                 success_url := baseUrl (env w)
                                ++ "/checkout/lesson-success?session_id={CHECKOUT_SESSION_ID}";
                 cancel_url := baseUrl (env w) ++ "/lessons/" ++ lessonId;
                 meta_lessonId := lessonId;
                 meta_userId := userId;
                 meta_instructorId := instructorId;
                 meta_productId := fst ids;
                 meta_priceId := snd ids;
                 meta_originalPrice := price b;
                 meta_instructorPayoutAmount := Checkout.metadata_instructorPayoutAmount p;
                 meta_platformFee := Checkout.metadata_platformFee p;
                 application_fee_amount := Checkout.application_fee_amount p;
                 transfer_destination := interpolate accountId |}) ;;;
      url <- await (checkout_session w) ;;
      json 200 (UrlBody url)
  end end end.

End CheckoutRoute.

(** ** [app/api/verify-lesson-purchase/route.ts]: the whole of [GET] *)

Module VerifyRoute.

Import Stdlib.Strings.String Env Flow.
Local Open Scope string_scope.

Notation "x <- c ;; k" := (bind c (fun x => k))
  (at level 61, c at next level, right associativity).
Notation "c ;;; k" := (bind c (fun _ => k))
  (at level 61, right associativity).

(** [searchParams.get] gives a string or [null]. *)
Record Query : Type := mkQuery {
  session_id : option String.string;
  lessonId : option String.string;
  free : option String.string
}.

(** The retrieved Stripe checkout session: what the route reads of it, and
    the [userId] the checkout route wrote into its metadata, which this
    route does not read. *)
Record StripeSession : Type := mkStripeSession {
  id : String.string;
  payment_status : String.string;
  meta_userId : option String.string;
  meta_lessonId : option String.string;
  meta_productId : option String.string;
  meta_priceId : option String.string;
  amounts : Verify.CheckoutSession
}.

Inductive Payload : Type :=
| ErrorBody (message : String.string)
| SuccessBody (lessonId : option String.string).

Record Response : Type := mkResponse { status : Z; payload : Payload }.

Record PurchaseRow : Type := mkPurchaseRow {
  user_id : String.string;
  lesson_id : String.string;
  stripe_payment_id : String.string;
  amount : number;
  stripe_product_id : option String.string;
  stripe_price_id : option String.string;
  instructor_payout_amount : option number;
  platform_fee_amount : number;
  payout_status : String.string;
  is_free : bool;
  with_video_id : bool
}.

Inductive Effect : Type :=
| PurchaseInsert (row : PurchaseRow).

Record World : Type := mkWorld {
  session_user : option String.string;
  query : Query;
  lesson_row : option (option number);
  existing_purchase : bool;
  column_exists : bool;
  insert_error : option String.string;
  now : String.string;
  checkout_session : Result (option StripeSession)
}.

Definition R (A : Type) : Type := M Effect Response A.

Definition json {A : Type} (status : Z) (p : Payload) : R A :=
  respond {| status := status; payload := p |}.

Definition throw {A : Type} (message : String.string) : R A :=
  json 500 (ErrorBody (if String.eqb message "" then "Failed to verify purchase"
                       else message)).

Definition await {A : Type} (r : Result A) : R A :=
  match r with
  | Ok a => ret a
  | Throws m => throw m
  end.

(** [parseFloat(x)] for a number or [null]. *)
Definition parseFloat_number (x : option number) : number :=
  match x with
  | Some p => if PrimFloat.is_zero p then 0 else p
  | None => nan
  end.

Definition freeBranch (w : World) (userId lessonId : String.string) : R Response :=
  match lesson_row w with
  | None => json 404 (ErrorBody "Lesson not found")
  | Some price =>
      if (0 <? parseFloat_number price)%float
      then json 400 (ErrorBody "This is not a free lesson")
      else
        (if existing_purchase w then ret tt
         else
           emit (PurchaseInsert
                   {| user_id := userId;
                      lesson_id := lessonId;
                      stripe_payment_id :=
                        "free_" ++ userId ++ "_" ++ lessonId ++ "_" ++ now w;
                      amount := 0;
                      stripe_product_id := None;
                      stripe_price_id := None;
                      instructor_payout_amount := Some 0%float;
                      platform_fee_amount := 0;
                      payout_status := "free_lesson";
                      is_free := true;
                      with_video_id := false |}) ;;;
           match insert_error w with
           | Some m =>
               json 500 (ErrorBody ("Failed to record free lesson access: " ++ m))
           | None => ret tt
           end) ;;;
        json 200 (SuccessBody (Some lessonId))
  end.

Definition paidBranch (pct : number) (w : World) (userId : String.string) : R Response :=
  if negb (truthy_str (session_id (query w)))
  then json 400 (ErrorBody "Missing session ID")
  else
    retrieved <- await (checkout_session w) ;;
    match retrieved with
    | None => json 400 (ErrorBody "Invalid session ID")
    | Some checkoutSession =>
        if negb (String.eqb (payment_status checkoutSession) "paid")
        then json 400 (ErrorBody "Payment not completed")
        else if negb (truthy_str (meta_lessonId checkoutSession))
        then json 400 (ErrorBody "Lesson ID not found in session metadata")
        else
          let lessonIdFromSession := interpolate (meta_lessonId checkoutSession) in
          if existing_purchase w
          then json 200 (SuccessBody (Some lessonIdFromSession))
          else
            let d := Verify.purchaseData pct (amounts checkoutSession) in
            emit (PurchaseInsert
                    {| user_id := userId;
                       lesson_id := lessonIdFromSession;
                       stripe_payment_id := id checkoutSession;
                       amount := Verify.amount d;
                       stripe_product_id := meta_productId checkoutSession;
                       stripe_price_id := meta_priceId checkoutSession;
                       instructor_payout_amount := Verify.instructor_payout_amount d;
                       platform_fee_amount := Verify.platform_fee_amount d;
                       payout_status := "pending_transfer";
                       is_free := false;
                       with_video_id := column_exists w |}) ;;;
            match insert_error w with
            | Some m => json 500 (ErrorBody ("Failed to record purchase: " ++ m))
            | None => json 200 (SuccessBody (lessonId (query w)))
            end
    end.

Definition GET (pct : number) (w : World) : R Response :=
  match session_user w with
  | None => json 401 (ErrorBody "You must be logged in to verify a purchase")
  | Some userId =>
      let isFree :=
        match free (query w) with
        | Some s => String.eqb s "true"
        | None => false
        end in
      if isFree && truthy_str (lessonId (query w))
      then freeBranch w userId (interpolate (lessonId (query w)))
      else paidBranch pct w userId
  end.

End VerifyRoute.

(** ** The computations of the fee tests and of the two conversions of the
       checkout route, as tests over whole amounts of cents *)

Module Pipeline.

(** The split of the charge for a base price: [calculateFees] applied to
    [calculatePriceWithStripeFees], as the fee tests and the verification
    route do. *)
Definition chargeSplit (pct basePrice : number) : FeeSplit :=
  calculateFees pct (calculatePriceWithStripeFees basePrice).

(** 'should maintain correct fee proportions'. *)
Definition proportion_ok (pct basePrice : number) : bool :=
  let priceWithFees := calculatePriceWithStripeFees basePrice in
  let r := calculateFees pct priceWithFees in
  let effectiveBasePriceForInstructor :=
    Math_round (basePrice * INSTRUCTOR_PERCENTAGE pct / 100) in
  let expectedRatio := effectiveBasePriceForInstructor / basePrice in
  let actualRatio := instructorAmount r / priceWithFees in
  abs (actualRatio - expectedRatio) <? 0.02.

(** The base price [calculateFees] works back from the charge, against
    the base price the charge was computed for. *)
Definition implied_base_ok (b : number) : bool :=
  let implied := basePrice (calculatePriceWithStripeFees b) in
  (b <=? implied) && (implied <=? b + 1 + b / 1000).

(** A price of [c] cents as the request carries it, in dollars, and the
    route's two conversions back to cents. *)
Definition dollars (c : number) : number := c / 100.

Definition conversions_ok (c : number) : bool :=
  (Checkout.priceInCents (dollars c) =? c)
  && (Checkout.priceWithFeesInCents (dollars c) =? calculatePriceWithStripeFees c).

Definition pipeline_ok (z : Z) : bool :=
  let b := of_Z z in
  split_ok DEFAULT_PLATFORM_FEE_PERCENTAGE (calculatePriceWithStripeFees b)
  && implied_base_ok b
  && conversions_ok b
  && ((z <? 31)%Z || proportion_ok DEFAULT_PLATFORM_FEE_PERCENTAGE b).

End Pipeline.

(** * Rounding to binary64: definitions

    What the kernel's specification of [+] and [/] on [float] ([SFadd] and
    [SFdiv] of [SpecFloat]) computes on non-negative numbers is the exact
    rational result rounded to nearest.  The definitions below state that;
    the lemmas after them prove it, and with it that the rounding is
    monotone and leaves representable values alone. *)

Module Rounding.

Local Open Scope Z_scope.

(** [2 ^ e] as a rational, for an exponent of either sign. *)
Definition pow2 (e : Z) : Q := (2 ^ e)%Q.

(** Where the rational [t] lies in the unit interval that starts at the
    integer [m]: on [m], below, at or above the midpoint. *)
Definition located (t : Q) (m : Z) (l : location) : Prop :=
  match l with
  | loc_Exact => (t == inject_Z m)%Q
  | loc_Inexact Lt => (inject_Z m < t /\ t < inject_Z m + (1#2))%Q
  | loc_Inexact Eq => (t == inject_Z m + (1#2))%Q
  | loc_Inexact Gt => (inject_Z m + (1#2) < t /\ t < inject_Z m + 1)%Q
  end.

(** [m], [e], [l] truncate [q] at the exponent binary64 gives to numbers of
    the magnitude of [q]. *)
Definition normal (q : Q) (m e : Z) (l : location) : Prop :=
  0 <= m /\ located (q * pow2 (- e)) m l /\ e = fexp prec emax (Zdigits2 m + e).

(** The number with the rounded mantissa [r] at exponent [e]: a carry into
    the 54th bit moves to the next exponent, an exponent above 971
    overflows to infinity. *)
Definition pack (r e : Z) : spec_float :=
  if r =? 0 then S754_zero false
  else if r <? 2 ^ 53 then
    (if e <=? 971 then S754_finite false (Z.to_pos r) e else S754_infinity false)
  else
    (if e + 1 <=? 971 then S754_finite false (Z.to_pos (2 ^ 52)) (e + 1)
     else S754_infinity false).

(** The second half of [binary_round_aux], after the mantissa is rounded. *)
Definition finalize (r e : Z) : spec_float :=
  let '(mrs, e') := shr_fexp prec emax r e loc_Exact in
  match shr_m mrs with
  | Z0 => S754_zero false
  | Zpos m => if e' <=? emax - prec then S754_finite false m e' else S754_infinity false
  | Zneg _ => S754_nan
  end.

(** The value of a finite number. *)
Definition SF2Q (f : spec_float) : Q :=
  match f with
  | S754_finite s m e => (inject_Z (cond_Zopp s (Zpos m)) * pow2 e)%Q
  | _ => 0%Q
  end.

(** [f] is the non-negative rational [q] rounded to nearest even. *)
Inductive rounds_to (q : Q) : spec_float -> Prop :=
| rounds_zero s : (q == 0)%Q -> rounds_to q (S754_zero s)
| rounds_pos m e l :
    (0 < q)%Q -> normal q m e l ->
    rounds_to q (pack (round_nearest_even m l) e).

(** Non-negative numbers: zeros, positive finite numbers and +Infinity. *)
Definition nonneg (f : spec_float) : Prop :=
  match f with
  | S754_zero _ => True
  | S754_infinity s => s = false
  | S754_finite s m e => s = false /\ bounded prec emax m e = true
  | S754_nan => False
  end.

(** The value of a non-negative number, [None] for +Infinity, and the
    order on such values. *)
Definition xval (f : spec_float) : option Q :=
  match f with
  | S754_finite false m e => Some (inject_Z (Zpos m) * pow2 e)%Q
  | S754_infinity false => None
  | _ => Some 0%Q
  end.

Definition xle (a b : option Q) : Prop :=
  match a, b with
  | _, None => True
  | Some x, Some y => (x <= y)%Q
  | None, Some _ => False
  end.

Definition xrounds (q : option Q) (f : spec_float) : Prop :=
  match q with
  | None => f = S754_infinity false
  | Some q => (0 <= q)%Q /\ rounds_to q f
  end.

Definition integral (q : option Q) : Prop :=
  match q with
  | Some q => exists K, (q == inject_Z K)%Q
  | None => True
  end.

(** [F] maps a non-negative number of value [v] to [g v] rounded. *)
Definition rounds_fun (F : float -> float) (g : Q -> Q) : Prop :=
  forall z, nonneg (Prim2SF z) ->
            xrounds (option_map g (xval (Prim2SF z))) (Prim2SF (F z)).

(** The two constants of [calculatePriceWithStripeFees], as the kernel
    represents them: 30 and [1 - 2.9 / 100]. *)
Definition SF30 : spec_float := S754_finite false 8444249301319680 (-48).
Definition SFc : spec_float := S754_finite false 8745990476353503 (-53).
Definition vc : Q := SF2Q SFc.

End Rounding.

(** * Rounding to binary64: lemmas *)

Module Binary64.

Import Rounding.
Local Open Scope Z_scope.

Lemma pow2_pos e : (0 < pow2 e)%Q.
Proof. apply Qpower_0_lt. reflexivity. Qed.

Lemma pow2_add a b : (pow2 (a + b) == pow2 a * pow2 b)%Q.
Proof. apply Qpower_plus. discriminate. Qed.

Lemma pow2_succ e : (pow2 (e + 1) == 2 * pow2 e)%Q.
Proof. rewrite pow2_add. change (pow2 1) with 2%Q. ring. Qed.

Lemma pow2_le a b : a <= b -> (pow2 a <= pow2 b)%Q.
Proof. intros H. apply Qpower_le_compat_l; [exact H | discriminate]. Qed.

Lemma pow2_Z n : 0 <= n -> (inject_Z (2 ^ n) == pow2 n)%Q.
Proof. intros H. apply Zpower_Qpower. exact H. Qed.

Lemma located_bounds t m l : located t m l -> (inject_Z m <= t /\ t < inject_Z m + 1)%Q.
Proof. destruct l as [|[| |]]; simpl; intros; lra. Qed.

Lemma located_ext t t' m l : (t == t')%Q -> located t m l -> located t' m l.
Proof. intros E. destruct l as [|[| |]]; simpl; intros; lra. Qed.

Lemma shr_1_eq m r s :
  0 <= m ->
  shr_1 (Build_shr_record m r s) = Build_shr_record (Z.div2 m) (Z.odd m) (r || s).
Proof.
  destruct m as [|[p|p|]|p]; try lia; reflexivity.
Qed.

(** One step of [shr_1] halves the scale and keeps track of the location. *)
Lemma located_shr_1 t mrs :
  0 <= shr_m mrs ->
  located t (shr_m mrs) (loc_of_shr_record mrs) ->
  located (t * (1#2)) (shr_m (shr_1 mrs)) (loc_of_shr_record (shr_1 mrs)).
Proof.
  destruct mrs as [m r s]. unfold shr_m at 1 2. intros Hm.
  rewrite shr_1_eq by exact Hm.
  unfold shr_m, loc_of_shr_record.
  pose proof (Zdiv2_odd_eqn m) as E.
  remember (Z.div2 m) as k eqn:Hk. clear Hk.
  assert (EQ : (inject_Z m == 2 * inject_Z k + (if Z.odd m then 1 else 0))%Q).
  { rewrite E at 1. rewrite inject_Z_plus, inject_Z_mult.
    destruct (Z.odd m); reflexivity. }
  clear E.
  destruct (Z.odd m), r, s; unfold located, orb; revert EQ;
    generalize (inject_Z m) (inject_Z k); intros qm qk EQ H; lra.
Qed.

Lemma Zdigits2_div2 m :
  0 <= m -> Zdigits2 (Z.div2 m) = Z.max 0 (Zdigits2 m - 1).
Proof.
  destruct m as [|[p|p|]|p]; try lia; intros _; simpl Z.div2;
    cbn [Zdigits2 digits2_pos]; rewrite ?Pos2Z.inj_succ; lia.
Qed.

Lemma digits_shr_1 mrs :
  0 <= shr_m mrs ->
  0 <= shr_m (shr_1 mrs) /\
  Zdigits2 (shr_m (shr_1 mrs)) = Z.max 0 (Zdigits2 (shr_m mrs) - 1).
Proof.
  destruct mrs as [m r s]. unfold shr_m at 1. intros Hm.
  rewrite shr_1_eq by exact Hm. unfold shr_m.
  split; [ rewrite Z.div2_div; apply Z.div_pos; lia | apply Zdigits2_div2; exact Hm ].
Qed.

(** Iterating [shr_1]: [p] halvings. *)
Lemma iter_shr_1 p : forall mrs t,
  0 <= shr_m mrs ->
  located t (shr_m mrs) (loc_of_shr_record mrs) ->
  let mrs' := iter_pos shr_1 p mrs in
  0 <= shr_m mrs' /\
  located (t * pow2 (- Zpos p)) (shr_m mrs') (loc_of_shr_record mrs') /\
  Zdigits2 (shr_m mrs') = Z.max 0 (Zdigits2 (shr_m mrs) - Zpos p).
Proof.
  assert (STEP : forall mrs t, 0 <= shr_m mrs ->
            located t (shr_m mrs) (loc_of_shr_record mrs) ->
            0 <= shr_m (shr_1 mrs) /\
            located (t * pow2 (-1)) (shr_m (shr_1 mrs)) (loc_of_shr_record (shr_1 mrs)) /\
            Zdigits2 (shr_m (shr_1 mrs)) = Z.max 0 (Zdigits2 (shr_m mrs) - 1)).
  { intros mrs t H0 H1. destruct (digits_shr_1 mrs H0) as [A B].
    repeat split; try assumption.
    apply located_ext with (t * (1#2))%Q; [ reflexivity | apply located_shr_1; assumption ]. }
  induction p as [p IH|p IH|]; intros mrs t H0 H1; cbn [iter_pos].
  - destruct (STEP mrs t H0 H1) as (A0 & A1 & A2).
    destruct (IH _ _ A0 A1) as (B0 & B1 & B2).
    destruct (IH _ _ B0 B1) as (C0 & C1 & C2).
    repeat split; try assumption.
    + eapply located_ext; [ | exact C1 ].
      rewrite <- !Qmult_assoc, <- !pow2_add.
      replace (-1 + (- Zpos p + - Zpos p)) with (- Zpos p~1) by lia. reflexivity.
    + rewrite C2, B2, A2. lia.
  - destruct (IH _ _ H0 H1) as (B0 & B1 & B2).
    destruct (IH _ _ B0 B1) as (C0 & C1 & C2).
    repeat split; try assumption.
    + eapply located_ext; [ | exact C1 ].
      rewrite <- !Qmult_assoc, <- !pow2_add.
      replace (- Zpos p + - Zpos p) with (- Zpos p~0) by lia. reflexivity.
    + rewrite C2, B2. lia.
  - apply STEP; assumption.
Qed.


(** ** Digits *)

Lemma digits2_pos_size p : digits2_pos p = Pos.size p.
Proof. induction p; simpl; congruence. Qed.

Lemma Zdigits2_log2 m : 0 < m -> Zdigits2 m = Z.log2 m + 1.
Proof.
  destruct m as [|p|p]; try lia. intros _.
  cbn [Zdigits2]. rewrite digits2_pos_size.
  destruct p; cbn [Z.log2 Pos.size]; rewrite ?Pos2Z.inj_succ; lia.
Qed.

Lemma Zdigits2_nonneg m : 0 <= Zdigits2 m.
Proof. destruct m; simpl; lia. Qed.

Lemma Zdigits2_mono a b : 0 <= a <= b -> Zdigits2 a <= Zdigits2 b.
Proof.
  intros [Ha Hab].
  destruct (Z.eq_dec a 0) as [->|Na]; [ apply Zdigits2_nonneg | ].
  rewrite !Zdigits2_log2 by lia.
  pose proof (Z.log2_le_mono a b Hab). lia.
Qed.

Lemma Zdigits2_le_iff m k : 0 <= m -> 0 <= k -> (Zdigits2 m <= k <-> m < 2 ^ k).
Proof.
  intros Hm Hk.
  destruct (Z.eq_dec m 0) as [->|Nm].
  - simpl. split; intros _; [ apply Z.pow_pos_nonneg | ]; lia.
  - rewrite Zdigits2_log2 by lia.
    pose proof (Z.log2_lt_pow2 m k ltac:(lia)). lia.
Qed.

Lemma Zdigits2_ge_iff m k : 0 <= m -> 0 < k -> (k <= Zdigits2 m <-> 2 ^ (k - 1) <= m).
Proof.
  intros Hm Hk.
  pose proof (Zdigits2_le_iff m (k - 1) Hm ltac:(lia)). lia.
Qed.

(** ** Normalised brackets *)

Lemma fexp_eq x : fexp prec emax x = Z.max (x - 53) (-1074).
Proof. reflexivity. Qed.

Lemma shr_m_of_loc m l : shr_m (shr_record_of_loc m l) = m.
Proof. destruct l as [|[| |]]; reflexivity. Qed.

Lemma loc_of_of_loc m l : loc_of_shr_record (shr_record_of_loc m l) = l.
Proof. destruct l as [|[| |]]; reflexivity. Qed.

(** [shr_fexp] brings any bracket of [q] at a small enough exponent to the
    normalised one. *)
Lemma shr_fexp_normal q m e l :
  0 <= m ->
  located (q * pow2 (- e)) m l ->
  e <= fexp prec emax (Zdigits2 m + e) ->
  let r := shr_fexp prec emax m e l in
  normal q (shr_m (fst r)) (snd r) (loc_of_shr_record (fst r)).
Proof.
  intros Hm Hb He. unfold shr_fexp, shr.
  remember (fexp prec emax (Zdigits2 m + e) - e) as n eqn:Hn.
  destruct n as [|p|p]; cbn [fst snd]; try lia.
  - rewrite shr_m_of_loc, loc_of_of_loc. repeat split; try assumption. lia.
  - destruct (iter_shr_1 p (shr_record_of_loc m l) (q * pow2 (- e))%Q) as (A & B & C).
    + rewrite shr_m_of_loc. exact Hm.
    + rewrite shr_m_of_loc, loc_of_of_loc. exact Hb.
    + rewrite shr_m_of_loc in C.
      repeat split; try assumption.
      * eapply located_ext; [ | exact B ].
        rewrite <- Qmult_assoc, <- pow2_add.
        replace (- e + - Zpos p) with (- (e + Zpos p)) by lia. reflexivity.
      * rewrite C. rewrite fexp_eq in *. lia.
Qed.

(** ** The last step of [binary_round_aux] on a normalised bracket *)

Lemma binary_round_aux_finalize m e l :
  binary_round_aux prec emax false m e l =
  let r := shr_fexp prec emax m e l in
  finalize (round_nearest_even (shr_m (fst r)) (loc_of_shr_record (fst r))) (snd r).
Proof.
  unfold binary_round_aux, finalize.
  destruct (shr_fexp prec emax m e l) as [mrs e']. reflexivity.
Qed.

Lemma round_nearest_even_bounds m l :
  m <= round_nearest_even m l <= m + 1.
Proof.
  destruct l as [|[| |]]; simpl; try lia. destruct (Z.even m); lia.
Qed.

Lemma normal_facts q m e l :
  normal q m e l ->
  0 <= m < 2 ^ 53 /\ -1074 <= e /\ (-1074 < e -> 2 ^ 52 <= m).
Proof.
  intros (Hm & _ & He). rewrite fexp_eq in He.
  assert (D : Zdigits2 m <= 53) by lia.
  apply (Zdigits2_le_iff m 53) in D; try lia.
  repeat split; try lia.
  intros H. apply (Zdigits2_ge_iff m 53); lia.
Qed.

(** On a normalised bracket the last step of [binary_round_aux] is [pack]. *)
Lemma finalize_pack q m e l :
  normal q m e l ->
  finalize (round_nearest_even m l) e = pack (round_nearest_even m l) e.
Proof.
  intros N. pose proof (normal_facts _ _ _ _ N) as (Hm & He & Hn).
  destruct N as (_ & _ & Hc). rewrite fexp_eq in Hc.
  pose proof (round_nearest_even_bounds m l) as Hr.
  remember (round_nearest_even m l) as r eqn:Er. clear Er.
  unfold pack.
  destruct (Z.eqb_spec r 0) as [->|Nr].
  - assert (m = 0) by lia. subst m. simpl in Hc.
    assert (e = -1074) by lia. subst e. reflexivity.
  - destruct (Z.ltb_spec r (2 ^ 53)) as [Lt|Ge].
    + assert (Hd : fexp prec emax (Zdigits2 r + e) - e = 0).
      { rewrite fexp_eq.
        assert (Zdigits2 r <= 53) by (apply Zdigits2_le_iff; lia).
        assert (Zdigits2 m <= Zdigits2 r) by (apply Zdigits2_mono; lia).
        lia. }
      unfold finalize, shr_fexp, shr. rewrite Hd. cbn [shr_record_of_loc shr_m].
      destruct r as [|p|p]; try lia. reflexivity.
    + assert (r = 2 ^ 53) by lia. subst r.
      unfold finalize, shr_fexp, shr.
      replace (fexp prec emax (Zdigits2 (2 ^ 53) + e) - e) with 1
        by (rewrite fexp_eq; change (Zdigits2 (2 ^ 53)) with 54; lia).
      reflexivity.
Qed.


(** ** Order of the packed results *)

Lemma SFleb_finite m1 e1 m2 e2 :
  e1 < e2 \/ (e1 = e2 /\ (m1 <= m2)%positive) ->
  SFleb (S754_finite false m1 e1) (S754_finite false m2 e2) = true.
Proof.
  intros H. unfold SFleb, SFcompare.
  destruct (Z.compare_spec e1 e2) as [E|L|G]; try reflexivity; try lia.
  change (Pos.compare_cont Eq m1 m2) with (Pos.compare m1 m2).
  destruct (Pos.compare_spec m1 m2); try reflexivity; lia.
Qed.

Lemma pack_le r1 e1 r2 e2 :
  0 <= r1 <= 2 ^ 53 -> 0 <= r2 <= 2 ^ 53 ->
  -1074 <= e1 -> (-1074 < e2 -> 2 ^ 52 <= r2) ->
  e1 < e2 \/ (e1 = e2 /\ r1 <= r2) ->
  SFleb (pack r1 e1) (pack r2 e2) = true.
Proof.
  intros H1 H2 E1 N2 H. unfold pack.
  repeat match goal with
  | |- context [Z.eqb ?a ?b] => destruct (Z.eqb_spec a b)
  | |- context [Z.ltb ?a ?b] => destruct (Z.ltb_spec a b)
  | |- context [Z.leb ?a ?b] => destruct (Z.leb_spec a b)
  end; try reflexivity; try lia;
  apply SFleb_finite; rewrite ?Z2Pos.id by lia; lia.
Qed.

Lemma SFleb_pack_infinity r e : SFleb (pack r e) (S754_infinity false) = true.
Proof.
  unfold pack.
  repeat match goal with
  | |- context [if ?b then _ else _] => destruct b
  end; reflexivity.
Qed.

Lemma scl_ge q e c : (c <= q * pow2 (- e) -> c * pow2 e <= q)%Q.
Proof.
  intros H. pose proof (pow2_pos e) as P.
  assert (E : (q == q * pow2 (- e) * pow2 e)%Q).
  { rewrite <- Qmult_assoc, <- pow2_add. replace (- e + e) with 0 by lia.
    change (pow2 0) with 1%Q. ring. }
  rewrite E. apply Qmult_le_compat_r; [ exact H | apply Qlt_le_weak; exact P ].
Qed.

Lemma scl_lt q e c : (q * pow2 (- e) < c -> q < c * pow2 e)%Q.
Proof.
  intros H. pose proof (pow2_pos e) as P.
  assert (E : (q == q * pow2 (- e) * pow2 e)%Q).
  { rewrite <- Qmult_assoc, <- pow2_add. replace (- e + e) with 0 by lia.
    change (pow2 0) with 1%Q. ring. }
  rewrite E. apply Qmult_lt_compat_r; assumption.
Qed.

Lemma inject_Z_lt_succ a b : (inject_Z a < inject_Z b + 1)%Q -> a <= b.
Proof.
  intros H. change 1%Q with (inject_Z 1) in H.
  rewrite <- inject_Z_plus, <- Zlt_Qlt in H. lia.
Qed.

(** Rounding to nearest is monotone: the normalised brackets of [q1 <= q2]
    round to numbers in the same order. *)
Lemma normal_mono q1 m1 e1 l1 q2 m2 e2 l2 :
  normal q1 m1 e1 l1 -> normal q2 m2 e2 l2 -> (q1 <= q2)%Q ->
  SFleb (pack (round_nearest_even m1 l1) e1) (pack (round_nearest_even m2 l2) e2) = true.
Proof.
  intros N1 N2 Hq.
  pose proof (normal_facts _ _ _ _ N1) as (Hm1 & He1 & Hn1).
  pose proof (normal_facts _ _ _ _ N2) as (Hm2 & He2 & Hn2).
  pose proof (round_nearest_even_bounds m1 l1) as Hr1.
  pose proof (round_nearest_even_bounds m2 l2) as Hr2.
  destruct N1 as (_ & B1 & _). destruct N2 as (_ & B2 & _).
  apply pack_le; try lia.
  destruct (Z.lt_trichotomy e1 e2) as [L|[E|G]]; [ left; exact L | right | exfalso ].
  - subst e2. split; [ reflexivity | ].
    assert (Ht : (q1 * pow2 (- e1) <= q2 * pow2 (- e1))%Q).
    { apply Qmult_le_compat_r; [ exact Hq | apply Qlt_le_weak, pow2_pos ]. }
    revert B1 B2 Ht.
    generalize (q1 * pow2 (- e1))%Q (q2 * pow2 (- e1))%Q. intros t1 t2 B1 B2 Ht.
    pose proof (located_bounds _ _ _ B1) as A1. pose proof (located_bounds _ _ _ B2) as A2.
    assert (m1 <= m2) by (apply inject_Z_lt_succ; lra).
    destruct (Z.eq_dec m1 m2) as [->|Ne]; [ | lia ].
    clear A1 A2 Hr1 Hr2.
    destruct l1 as [|[| |]], l2 as [|[| |]]; unfold located in B1, B2;
      unfold round_nearest_even; try destruct (Z.even m2); try lia; exfalso; lra.
  - assert (A1 : (inject_Z (2 ^ 52) <= inject_Z m1)%Q) by (rewrite <- Zle_Qle; lia).
    assert (A2 : (inject_Z m2 + 1 <= inject_Z (2 ^ 53))%Q).
    { change 1%Q with (inject_Z 1). rewrite <- inject_Z_plus, <- Zle_Qle. lia. }
    pose proof (located_bounds _ _ _ B1) as [C1 _]. pose proof (located_bounds _ _ _ B2) as [_ C2].
    assert (D1 : (inject_Z (2 ^ 52) * pow2 e1 <= q1)%Q) by (apply scl_ge; lra).
    assert (D2 : (q2 < inject_Z (2 ^ 53) * pow2 e2)%Q) by (apply scl_lt; lra).
    pose proof (pow2_le e2 (e1 - 1) ltac:(lia)) as P.
    pose proof (pow2_succ (e1 - 1)) as S. replace (e1 - 1 + 1) with e1 in S by lia.
    pose proof (pow2_pos e2).
    change (inject_Z (2 ^ 52)) with (4503599627370496 # 1)%Q in D1.
    change (inject_Z (2 ^ 53)) with (9007199254740992 # 1)%Q in D2.
    lra.
Qed.


(** ** Rounding a non-negative rational *)

Lemma pack_cases r e :
  pack r e = S754_zero false \/ pack r e = S754_infinity false \/
  exists m e', pack r e = S754_finite false m e'.
Proof.
  unfold pack.
  repeat match goal with
  | |- context [if ?b then _ else _] => destruct b
  end; eauto.
Qed.

Lemma rounds_to_mono q1 f1 q2 f2 :
  rounds_to q1 f1 -> rounds_to q2 f2 -> (q1 <= q2)%Q -> SFleb f1 f2 = true.
Proof.
  intros [s1 Z1|m1 e1 l1 P1 N1] [s2 Z2|m2 e2 l2 P2 N2] Hq.
  - reflexivity.
  - destruct (pack_cases (round_nearest_even m2 l2) e2) as [E|[E|(m & e' & E)]];
      rewrite E; reflexivity.
  - exfalso. lra.
  - eapply normal_mono; eassumption.
Qed.

Lemma rounds_to_ext q q' f : (q == q')%Q -> rounds_to q f -> rounds_to q' f.
Proof.
  intros E [s Z|m e l P (A & B & C)].
  - apply rounds_zero. lra.
  - apply rounds_pos; [ lra | ]. repeat split; try assumption.
    eapply located_ext; [ | exact B ]. rewrite E. reflexivity.
Qed.

Lemma scl_cancel x e : (x * pow2 e * pow2 (- e) == x)%Q.
Proof.
  rewrite <- Qmult_assoc, <- pow2_add. replace (e + - e) with 0 by lia.
  change (pow2 0) with 1%Q. ring.
Qed.

Lemma bounded_facts m e :
  bounded prec emax m e = true ->
  e = fexp prec emax (Zdigits2 (Zpos m) + e) /\ e <= 971 /\ Zpos m < 2 ^ 53.
Proof.
  unfold bounded, canonical_mantissa. intros H.
  apply andb_prop in H. destruct H as [C B].
  apply Z.eqb_eq in C. apply Z.leb_le in B. cbn [Zdigits2].
  change (emax - prec) with 971 in B.
  repeat split; try lia.
  apply Zdigits2_le_iff; try lia. cbn [Zdigits2]. rewrite fexp_eq in C. lia.
Qed.

(** A representable value rounds to itself. *)
Lemma valid_rounds m e :
  bounded prec emax m e = true ->
  rounds_to (SF2Q (S754_finite false m e)) (S754_finite false m e).
Proof.
  intros H. destruct (bounded_facts m e H) as (C & B & L).
  assert (N : normal (SF2Q (S754_finite false m e)) (Zpos m) e loc_Exact).
  { repeat split; try lia; try assumption.
    unfold located, SF2Q, cond_Zopp. apply scl_cancel. }
  assert (P : (0 < SF2Q (S754_finite false m e))%Q).
  { unfold SF2Q, cond_Zopp. apply Qmult_lt_0_compat; [ reflexivity | apply pow2_pos ]. }
  pose proof (rounds_pos _ _ _ _ P N) as R.
  cbn [round_nearest_even] in R. unfold pack in R.
  destruct (Z.eqb_spec (Zpos m) 0); try lia.
  destruct (Z.ltb_spec (Zpos m) (2 ^ 53)); try lia.
  destruct (Z.leb_spec e 971); try lia.
  exact R.
Qed.

(** [binary_round_aux] rounds the rational its arguments bracket. *)
Lemma binary_round_aux_rounds q m e l :
  (0 < q)%Q -> 0 <= m -> located (q * pow2 (- e)) m l ->
  e <= fexp prec emax (Zdigits2 m + e) ->
  rounds_to q (binary_round_aux prec emax false m e l).
Proof.
  intros P Hm B He.
  rewrite binary_round_aux_finalize. cbv zeta.
  pose proof (shr_fexp_normal q m e l Hm B He) as N. cbv zeta in N.
  rewrite (finalize_pack _ _ _ _ N).
  apply rounds_pos; assumption.
Qed.

(** ** [binary_normalize] of a positive integer mantissa *)

Lemma Pos_iter_xO m d : Zpos (Pos.iter xO m d) = Zpos m * 2 ^ Zpos d.
Proof.
  induction d as [|d IH] using Pos.peano_ind.
  - cbn [Pos.iter]. lia.
  - rewrite Pos.iter_succ. rewrite Pos2Z.inj_xO, IH.
    rewrite Pos2Z.inj_succ, Z.pow_succ_r by lia. ring.
Qed.


Lemma Zdigits2_mul_pow2 m d :
  0 < m -> 0 <= d -> Zdigits2 (m * 2 ^ d) = Zdigits2 m + d.
Proof.
  intros Hm Hd.
  assert (0 < 2 ^ d) by (apply Z.pow_pos_nonneg; lia).
  rewrite !Zdigits2_log2 by nia.
  rewrite Z.log2_mul_pow2 by lia. lia.
Qed.

Lemma binary_round_rounds m e :
  rounds_to (inject_Z (Zpos m) * pow2 e) (binary_round prec emax false m e).
Proof.
  assert (P : (0 < inject_Z (Zpos m) * pow2 e)%Q).
  { apply Qmult_lt_0_compat; [ reflexivity | apply pow2_pos ]. }
  unfold binary_round, shl_align.
  remember (fexp prec emax (Zpos (digits2_pos m) + e)) as t eqn:Ht.
  change (Zpos (digits2_pos m)) with (Zdigits2 (Zpos m)) in Ht.
  destruct (t - e) as [|d|d] eqn:Hd.
  - apply binary_round_aux_rounds; try lia; try assumption.
    unfold located. apply scl_cancel.
  - apply binary_round_aux_rounds; try lia; try assumption.
    unfold located. apply scl_cancel.
  - assert (Et : e = t + Zpos d) by lia.
    apply binary_round_aux_rounds; try lia; try assumption.
    + unfold located. rewrite Pos_iter_xO, inject_Z_mult, pow2_Z by lia.
      rewrite <- Qmult_assoc, <- pow2_add.
      replace (e + - t) with (Zpos d) by lia. reflexivity.
    + rewrite Pos_iter_xO, Zdigits2_mul_pow2 by lia.
      replace (Zdigits2 (Zpos m) + Zpos d + t) with (Zdigits2 (Zpos m) + e) by lia.
      lia.
Qed.

Lemma binary_normalize_rounds n e :
  0 < n -> rounds_to (inject_Z n * pow2 e) (binary_normalize prec emax n e false).
Proof.
  destruct n as [|p|p]; try lia. intros _. apply binary_round_rounds.
Qed.

(** ** Addition of two positive finite numbers *)

Lemma shl_align_fst m e e' :
  e' <= e -> Zpos (fst (shl_align m e e')) = Zpos m * 2 ^ (e - e').
Proof.
  intros H. unfold shl_align.
  destruct (e' - e) as [|d|d] eqn:Hd; cbn [fst]; try lia.
  - replace (e - e') with 0 by lia. lia.
  - rewrite Pos_iter_xO. replace (e - e') with (Zpos d) by lia. reflexivity.
Qed.

(** The sum of two positive finite numbers is the exact sum, rounded. *)
Lemma SFadd_rounds mx ex my ey :
  rounds_to (SF2Q (S754_finite false mx ex) + SF2Q (S754_finite false my ey))
            (SFadd prec emax (S754_finite false mx ex) (S754_finite false my ey)).
Proof.
  cbn [SFadd SF2Q cond_Zopp].
  set (ez := Z.min ex ey).
  rewrite !shl_align_fst by (unfold ez; lia).
  eapply rounds_to_ext; [ | apply binary_normalize_rounds ].
  - rewrite inject_Z_plus, !inject_Z_mult, !pow2_Z by (unfold ez; lia).
    rewrite Qmult_plus_distr_l, <- !Qmult_assoc, <- !pow2_add.
    replace (ex - ez + ez) with ex by lia.
    replace (ey - ez + ez) with ey by lia. reflexivity.
  - assert (0 < 2 ^ (ex - ez)) by (apply Z.pow_pos_nonneg; unfold ez; lia).
    assert (0 < 2 ^ (ey - ez)) by (apply Z.pow_pos_nonneg; unfold ez; lia).
    nia.
Qed.


(** ** Division of two positive finite numbers *)

Lemma injZ_lt a b : a < b -> (inject_Z a < inject_Z b)%Q.
Proof. intros H. rewrite <- Zlt_Qlt. exact H. Qed.

Lemma injZ_le a b : a <= b -> (inject_Z a <= inject_Z b)%Q.
Proof. intros H. rewrite <- Zle_Qle. exact H. Qed.

Lemma injZ_double a : (inject_Z (2 * a) == 2 * inject_Z a)%Q.
Proof. rewrite inject_Z_mult. reflexivity. Qed.

Lemma injZ_double_succ a : (inject_Z (2 * a + 1) == 2 * inject_Z a + 1)%Q.
Proof. rewrite inject_Z_plus, inject_Z_mult. reflexivity. Qed.

(** The location [SFdiv_core_binary] computes from the remainder. *)
Lemma new_location_located my r t qq :
  0 < my -> 0 <= r < my ->
  (t * inject_Z my == inject_Z qq * inject_Z my + inject_Z r)%Q ->
  located t qq (new_location my r).
Proof.
  intros Hy [Hr0 Hr1] E.
  pose proof (injZ_lt _ _ Hy) as Y. change (inject_Z 0) with 0%Q in Y.
  pose proof (injZ_lt _ _ Hr1) as R1.
  assert (LT : forall a b : Q, (a * inject_Z my < b * inject_Z my -> a < b)%Q).
  { intros a b. apply Qmult_lt_r. exact Y. }
  assert (EQ : forall a b : Q, (a * inject_Z my == b * inject_Z my -> a == b)%Q).
  { intros a b H. apply Qmult_inj_r with (inject_Z my); [ lra | exact H ]. }
  unfold new_location.
  destruct (Z.eqb_spec r 0) as [R0|R0].
  - subst r. change (inject_Z 0) with 0%Q in E.
    destruct (Z.even my); cbn; apply EQ; lra.
  - assert (Hr : 0 < r) by lia.
    pose proof (injZ_lt _ _ Hr) as R2. change (inject_Z 0) with 0%Q in R2.
    apply Z.eqb_neq in R0.
    destruct (Z.even my) eqn:Ev; unfold new_location_even, new_location_odd; rewrite R0.
    + destruct (Z.compare_spec (2 * r) my) as [C|C|C]; unfold located.
      * pose proof (injZ_double r) as D. rewrite C in D.
        apply EQ. lra.
      * apply injZ_lt in C. rewrite injZ_double in C. split; apply LT; lra.
      * apply injZ_lt in C. rewrite injZ_double in C. split; apply LT; lra.
    + assert (Od : 2 * r <> my).
      { intros F. rewrite <- F, Z.even_mul in Ev. discriminate. }
      destruct (Z.compare_spec (2 * r + 1) my) as [C|C|C]; unfold located.
      * assert (C' : 2 * r < my) by lia.
        apply injZ_lt in C'. rewrite injZ_double in C'. split; apply LT; lra.
      * assert (C' : 2 * r < my) by lia.
        apply injZ_lt in C'. rewrite injZ_double in C'. split; apply LT; lra.
      * assert (C' : my < 2 * r) by lia.
        apply injZ_lt in C'. rewrite injZ_double in C'. split; apply LT; lra.
Qed.


Lemma fexp_mono a b : a <= b -> fexp prec emax a <= fexp prec emax b.
Proof. rewrite !fexp_eq. lia. Qed.

(** The quotient of two positive finite numbers is the exact quotient,
    rounded. *)
Lemma SFdiv_rounds mx ex my ey :
  rounds_to (SF2Q (S754_finite false mx ex) * / SF2Q (S754_finite false my ey))
            (SFdiv prec emax (S754_finite false mx ex) (S754_finite false my ey)).
Proof.
  cbn [SFdiv xorb SF2Q cond_Zopp]. unfold SFdiv_core_binary.
  set (d1 := Zdigits2 (Zpos mx)). set (d2 := Zdigits2 (Zpos my)).
  set (e' := Z.min (fexp prec emax (d1 + ex - (d2 + ey))) (ex - ey)).
  set (s := ex - ey - e').
  assert (Hs : 0 <= s) by (unfold s, e'; lia).
  set (m' := match s with Zpos _ => Z.shiftl (Zpos mx) s | Z0 => Zpos mx | Zneg _ => 0 end).
  assert (Hm' : m' = Zpos mx * 2 ^ s).
  { unfold m'. destruct s as [|p|p]; try lia.
    apply Z.shiftl_mul_pow2. lia. }
  clearbody m'.
  pose proof (Z_div_mod m' (Zpos my) eq_refl) as DM.
  destruct (Z.div_eucl m' (Zpos my)) as [qq r]. destruct DM as [DM Hr].
  assert (P2 : 0 < 2 ^ s) by (apply Z.pow_pos_nonneg; lia).
  assert (Hq : 0 <= qq) by nia.
  set (X := inject_Z (Zpos mx)). set (Y := inject_Z (Zpos my)).
  assert (HX : (0 < X)%Q) by reflexivity.
  assert (HY : (0 < Y)%Q) by reflexivity.
  pose proof (pow2_pos ex). pose proof (pow2_pos ey).
  apply binary_round_aux_rounds.
  - apply Qmult_lt_0_compat; [ apply Qmult_lt_0_compat; assumption | ].
    apply Qinv_lt_0_compat. apply Qmult_lt_0_compat; assumption.
  - exact Hq.
  - apply new_location_located; try lia. fold Y.
    assert (E1 : (inject_Z qq * Y + inject_Z r == X * pow2 s)%Q).
    { unfold X, Y. rewrite <- pow2_Z by lia.
      rewrite <- !inject_Z_mult, <- inject_Z_plus.
      apply inject_Z_injective. lia. }
    rewrite E1.
    assert (E2 : (pow2 s == pow2 ex * pow2 (- ey) * pow2 (- e'))%Q).
    { rewrite <- !pow2_add. replace (ex + - ey + - e') with s by (unfold s; lia).
      reflexivity. }
    assert (E3 : (pow2 (- ey) == / pow2 ey)%Q) by (apply Qpower_opp).
    rewrite E2, E3. field. split; lra.
  - assert (D : d1 + s - d2 <= Zdigits2 qq).
    { destruct (Z.le_gt_cases (d1 + s - d2) 0) as [L|G].
      - pose proof (Zdigits2_nonneg qq). lia.
      - apply Zdigits2_ge_iff; try lia.
        destruct (Z.le_gt_cases (2 ^ (d1 + s - d2 - 1)) qq) as [O|O]; [ exact O | exfalso ].
        assert (A1 : 2 ^ (d1 - 1) <= Zpos mx).
        { apply Zdigits2_ge_iff; try lia; unfold d1; cbn; lia. }
        assert (A2 : Zpos my < 2 ^ d2).
        { apply Zdigits2_le_iff; try lia; unfold d2; cbn; lia. }
        assert (A3 : 2 ^ (d1 - 1) * 2 ^ s <= m') by nia.
        assert (A4 : m' < Zpos my * (qq + 1)) by nia.
        assert (A5 : Zpos my * (qq + 1) <= Zpos my * 2 ^ (d1 + s - d2 - 1)) by nia.
        assert (A6 : 0 < 2 ^ (d1 + s - d2 - 1)) by (apply Z.pow_pos_nonneg; lia).
        assert (A7 : Zpos my * 2 ^ (d1 + s - d2 - 1) < 2 ^ d2 * 2 ^ (d1 + s - d2 - 1)) by nia.
        assert (d2pos : 0 <= d2) by (unfold d2; apply Zdigits2_nonneg).
        assert (d1pos : 0 < d1) by (unfold d1; cbn; lia).
        rewrite <- Z.pow_add_r in A3, A7 by lia.
        replace (d2 + (d1 + s - d2 - 1)) with (d1 - 1 + s) in A7 by lia.
        lia. }
    assert (F := fexp_mono (d1 + ex - (d2 + ey)) (Zdigits2 qq + e') ltac:(unfold s in D; lia)).
    unfold e' at 1. lia.
Qed.

End Binary64.

(** ** Non-negative numbers, +Infinity included *)

Module Extended.

Import Rounding Binary64.
Local Open Scope Z_scope.

Lemma rounds_to_shape q f :
  rounds_to q f ->
  (exists s, f = S754_zero s) \/ f = S754_infinity false \/
  exists m e, f = S754_finite false m e.
Proof.
  intros [s Z|m e l P N].
  - left. eauto.
  - destruct (pack_cases (round_nearest_even m l) e) as [E|[E|(m' & e' & E)]];
      rewrite E; eauto.
Qed.

Lemma xrounds_nonneg q f : xrounds q f -> valid_binary f = true -> nonneg f.
Proof.
  destruct q as [q|]; simpl.
  - intros [_ R] V. destruct (rounds_to_shape _ _ R) as [(s & ->)|[->|(m & e & ->)]];
      simpl; auto.
  - intros -> _. reflexivity.
Qed.

Lemma xrounds_mono q1 f1 q2 f2 :
  xrounds q1 f1 -> xrounds q2 f2 -> xle q1 q2 -> SFleb f1 f2 = true.
Proof.
  destruct q1 as [q1|], q2 as [q2|]; simpl; try tauto.
  - intros [_ R1] [_ R2] H. eapply rounds_to_mono; eassumption.
  - intros [_ R1] -> _.
    destruct (rounds_to_shape _ _ R1) as [(s & ->)|[->|(m & e & ->)]]; reflexivity.
  - intros -> -> _. reflexivity.
Qed.

Lemma xval_nonneg f : match xval f with Some q => (0 <= q)%Q | None => True end.
Proof.
  destruct f as [s|[|]| |[|] m e]; simpl; try lra; try exact I.
  pose proof (pow2_pos e).
  apply Qmult_le_0_compat; [ discriminate | lra ].
Qed.


Lemma nonneg_xrounds f : nonneg f -> xrounds (xval f) f.
Proof.
  destruct f as [s|[|]| |[|] m e]; simpl; try tauto; try discriminate.
  - intros _. split; [ lra | apply rounds_zero; reflexivity ].
  - intros [F _]. discriminate.
  - intros [_ B]. split.
    + exact (xval_nonneg (S754_finite false m e)).
    + exact (valid_rounds m e B).
Qed.

Lemma SFleb_antisym m1 e1 m2 e2 :
  SFleb (S754_finite false m1 e1) (S754_finite false m2 e2) = true ->
  SFleb (S754_finite false m2 e2) (S754_finite false m1 e1) = true ->
  e1 = e2 /\ m1 = m2.
Proof.
  unfold SFleb, SFcompare.
  change (Pos.compare_cont Eq m1 m2) with (Pos.compare m1 m2).
  change (Pos.compare_cont Eq m2 m1) with (Pos.compare m2 m1).
  destruct (Z.compare_spec e1 e2), (Z.compare_spec e2 e1); try lia; try discriminate.
  destruct (Pos.compare_spec m1 m2), (Pos.compare_spec m2 m1);
    try lia; try discriminate; auto.
Qed.

(** On non-negative numbers [<=] is the order of the values. *)
Lemma leb_xle f g :
  nonneg f -> nonneg g -> SFleb f g = true -> xle (xval f) (xval g).
Proof.
  intros Nf Ng L.
  destruct f as [s|[|]| |[|] m e]; simpl in Nf; try tauto; try discriminate;
    try (destruct Nf; discriminate).
  - pose proof (xval_nonneg g) as P. simpl. destruct (xval g); [ exact P | exact I ].
  - destruct g as [s|[|]| |[|] m e]; simpl in Ng; try tauto; try discriminate;
      try (destruct Ng; discriminate); try exact I.
  - destruct Nf as [_ Bf].
    destruct g as [s|[|]| |[|] m' e']; simpl in Ng; try tauto; try discriminate;
      try (destruct Ng; discriminate); try exact I.
    destruct Ng as [_ Bg]. simpl.
    destruct (Qlt_le_dec (inject_Z (Zpos m') * pow2 e') (inject_Z (Zpos m) * pow2 e))
      as [Lt|Le]; [ exfalso | exact Le ].
    pose proof (valid_rounds _ _ Bf) as Rf. pose proof (valid_rounds _ _ Bg) as Rg.
    pose proof (rounds_to_mono _ _ _ _ Rg Rf (Qlt_le_weak _ _ Lt)) as L'.
    destruct (SFleb_antisym _ _ _ _ L L') as [-> ->]. lra.
Qed.

Lemma nonneg_up f g : nonneg f -> SFleb f g = true -> valid_binary g = true -> nonneg g.
Proof.
  intros Nf L V.
  destruct f as [s|[|]| |[|] m e]; simpl in Nf; try tauto; try discriminate;
    try (destruct Nf; discriminate);
    destruct g as [s'|[|]| |[|] m' e']; simpl in *; auto; discriminate.
Qed.

Lemma SF30_value : (SF2Q SF30 == 30)%Q.
Proof. vm_compute. reflexivity. Qed.

Lemma vc_bounds : (0 < vc /\ vc < 1)%Q.
Proof. split; vm_compute; reflexivity. Qed.

Lemma add30_xrounds f :
  nonneg f -> xrounds (option_map (fun q => q + 30)%Q (xval f)) (SFadd prec emax f SF30).
Proof.
  intros Nf.
  destruct f as [s|[|]| |[|] m e]; simpl in Nf; try tauto; try discriminate;
    try (destruct Nf; discriminate).
  - simpl. split; [ lra | ].
    apply rounds_to_ext with (SF2Q SF30); [ rewrite SF30_value; ring | ].
    apply valid_rounds. reflexivity.
  - reflexivity.
  - pose proof (xval_nonneg (S754_finite false m e)) as P. simpl in P.
    cbn [xval option_map xrounds]. split; [ lra | ].
    eapply rounds_to_ext; [ | apply (SFadd_rounds m e 8444249301319680 (-48)) ].
    fold SF30. rewrite SF30_value. reflexivity.
Qed.

Lemma divc_xrounds f :
  nonneg f -> xrounds (option_map (fun q => q * / vc)%Q (xval f)) (SFdiv prec emax f SFc).
Proof.
  intros Nf. pose proof vc_bounds as [V0 V1].
  assert (VI : (0 < / vc)%Q) by (apply Qinv_lt_0_compat; exact V0).
  destruct f as [s|[|]| |[|] m e]; simpl in Nf; try tauto; try discriminate;
    try (destruct Nf; discriminate).
  - cbn [xval option_map xrounds]. split; [ lra | ].
    destruct s; apply rounds_zero; ring.
  - reflexivity.
  - pose proof (xval_nonneg (S754_finite false m e)) as P. simpl in P.
    cbn [xval option_map xrounds]. split.
    + apply Qmult_le_0_compat; lra.
    + apply (SFdiv_rounds m e 8745990476353503 (-53)).
Qed.

End Extended.

(** * Facts about [Math.round] and the two operators on non-negative numbers *)

Module NumberFacts.

Import Rounding Binary64 Extended.
Local Open Scope Z_scope.

Lemma Qfloor_half n : Qfloor (inject_Z n + (1 # 2)) = n.
Proof.
  pose proof (Qfloor_le (inject_Z n + (1 # 2))) as A.
  pose proof (Qlt_floor (inject_Z n + (1 # 2))) as B.
  rewrite inject_Z_plus in B. change (inject_Z 1) with 1%Q in B.
  assert (Qfloor (inject_Z n + (1 # 2)) <= n) by (apply inject_Z_lt_succ; lra).
  assert (n <= Qfloor (inject_Z n + (1 # 2))) by (apply inject_Z_lt_succ; lra).
  lia.
Qed.

Lemma floor_shift m e :
  e < 0 ->
  Z.shiftr (Zpos m + 2 ^ (- e - 1)) (- e)
  = Qfloor (inject_Z (Zpos m) * pow2 e + (1 # 2)).
Proof.
  intros He.
  rewrite Z.shiftr_div_pow2 by lia. rewrite Zdiv_Qdiv.
  apply Qfloor_comp.
  assert (P : 0 < 2 ^ (- e - 1)) by (apply Z.pow_pos_nonneg; lia).
  assert (E2 : 2 ^ (- e) = 2 * 2 ^ (- e - 1)).
  { rewrite <- Z.pow_succ_r by lia. f_equal. lia. }
  pose proof (injZ_lt _ _ P) as PQ. change (inject_Z 0) with 0%Q in PQ.
  assert (E3 : (pow2 e == / (2 * inject_Z (2 ^ (- e - 1))))%Q).
  { replace e with (- (- e)) at 1 by lia. unfold pow2. rewrite Qpower_opp.
    fold (pow2 (- e)). rewrite <- pow2_Z by lia. rewrite E2, inject_Z_mult.
    reflexivity. }
  rewrite E3, E2, inject_Z_plus, inject_Z_mult.
  change (inject_Z 2) with 2%Q.
  generalize dependent (inject_Z (2 ^ (- e - 1))). intros H PQ _.
  field. lra.
Qed.

Lemma Prim2SF_of_Z r :
  0 < r < 2 ^ 63 -> Prim2SF (JS.of_Z r) = binary_normalize prec emax r 0 false.
Proof.
  intros H. destruct r as [|p|p]; try lia. unfold JS.of_Z.
  rewrite FloatAxioms.of_uint63_spec. f_equal.
  rewrite Uint63.of_Z_spec. apply Z.mod_small. change wB with (2 ^ 63). lia.
Qed.

(** [Math.round] of a non-negative number of value [v] is
    [floor (v + 1/2)], which is representable. *)
Lemma Math_round_xrounds z :
  nonneg (Prim2SF z) ->
  xrounds (option_map (fun v => inject_Z (Qfloor (v + (1 # 2)))) (xval (Prim2SF z)))
          (Prim2SF (Math_round z)).
Proof.
  intros N. unfold Math_round.
  destruct (Prim2SF z) as [s|[|]| |[|] m e] eqn:E; simpl in N; try tauto;
    try discriminate; try (destruct N; discriminate); cbv beta iota.
  - rewrite E. cbn [xval option_map xrounds]. split; [ discriminate | ].
    apply rounds_zero. reflexivity.
  - destruct N as [_ B]. cbn [xval option_map xrounds cond_Zopp].
    pose proof (pow2_pos e) as Pe.
    assert (V0 : (0 <= inject_Z (Zpos m) * pow2 e)%Q).
    { apply Qmult_le_0_compat; [ discriminate | lra ]. }
    assert (F0 : (0 <= inject_Z (Qfloor (inject_Z (Zpos m) * pow2 e + (1 # 2))))%Q).
    { change 0%Q with (inject_Z 0). apply injZ_le.
      change 0 with (Qfloor 0). apply Qfloor_resp_le. lra. }
    split; [ exact F0 | ].
    destruct (Z.leb_spec 0 e) as [He|He].
    + rewrite E.
      apply rounds_to_ext with (SF2Q (S754_finite false m e)); [ | apply valid_rounds; exact B ].
      cbn [SF2Q cond_Zopp].
      assert (EQ : (inject_Z (Zpos m) * pow2 e == inject_Z (Zpos m * 2 ^ e))%Q).
      { rewrite inject_Z_mult, pow2_Z by lia. reflexivity. }
      rewrite (Qfloor_comp _ _ (Qplus_comp _ _ EQ _ _ (Qeq_refl (1 # 2)))).
      rewrite Qfloor_half. exact EQ.
    + rewrite floor_shift by exact He.
      remember (Qfloor (inject_Z (Zpos m) * pow2 e + (1 # 2))) as r eqn:Hr.
      assert (R0 : 0 <= r).
      { rewrite Zle_Qle. exact F0. }
      destruct (Z.eqb_spec r 0) as [->|Nr].
      * apply rounds_zero. reflexivity.
      * assert (R1 : r < 2 ^ 63).
        { destruct (bounded_facts m e B) as (_ & _ & L).
          assert (r <= Zpos m); [ | lia ].
          rewrite Hr, <- floor_shift by exact He.
          rewrite Z.shiftr_div_pow2 by lia.
          assert (P : 0 < 2 ^ (- e - 1)) by (apply Z.pow_pos_nonneg; lia).
          assert (E2 : 2 ^ (- e) = 2 * 2 ^ (- e - 1)).
          { rewrite <- Z.pow_succ_r by lia. f_equal. lia. }
          rewrite E2.
          apply Z.div_le_upper_bound; nia. }
        rewrite Prim2SF_of_Z by lia.
        eapply rounds_to_ext; [ | apply binary_normalize_rounds; lia ].
        change (pow2 0) with 1%Q. ring.
Qed.


(** ** Operators that round a monotone function of the value *)

Lemma xle_option_map (g : Q -> Q) a b :
  (forall x y, (x <= y)%Q -> (g x <= g y)%Q) ->
  xle a b -> xle (option_map g a) (option_map g b).
Proof.
  intros G. destruct a, b; simpl; auto.
Qed.

Lemma nonneg_leb x y :
  nonneg (Prim2SF x) -> (x <=? y)%float = true -> nonneg (Prim2SF y).
Proof.
  intros N L. rewrite FloatAxioms.leb_spec in L.
  eapply nonneg_up; [ exact N | exact L | apply Prim2SF_valid ].
Qed.

Lemma nonneg_of_leb x : (0 <=? x)%float = true -> nonneg (Prim2SF x).
Proof.
  intros L. apply (nonneg_leb 0%float x); [ exact I | exact L ].
Qed.

Lemma rounds_fun_nonneg F g z : rounds_fun F g -> nonneg (Prim2SF z) -> nonneg (Prim2SF (F z)).
Proof.
  intros R N. eapply xrounds_nonneg; [ apply R; exact N | apply Prim2SF_valid ].
Qed.

(** An operator that rounds a monotone function is monotone. *)
Lemma rounds_fun_mono F g x y :
  rounds_fun F g ->
  (forall u v, (u <= v)%Q -> (g u <= g v)%Q) ->
  nonneg (Prim2SF x) -> (x <=? y)%float = true ->
  (F x <=? F y)%float = true.
Proof.
  intros R G N L. pose proof (nonneg_leb _ _ N L) as N'.
  rewrite FloatAxioms.leb_spec in *.
  eapply xrounds_mono; [ apply R; exact N | apply R; exact N' | ].
  apply xle_option_map; [ exact G | ].
  apply leb_xle; assumption.
Qed.

Lemma add30_rounds_fun :
  rounds_fun (fun x => x + STRIPE_FIXED_FEE_CENTS)%float (fun q => q + 30)%Q.
Proof.
  intros z N. rewrite FloatAxioms.add_spec.
  change (Prim2SF STRIPE_FIXED_FEE_CENTS) with SF30.
  apply add30_xrounds. exact N.
Qed.

Lemma divc_rounds_fun :
  rounds_fun (fun x => x / (1 - STRIPE_PERCENTAGE_FEE / 100))%float
             (fun q => q * / vc)%Q.
Proof.
  intros z N. rewrite FloatAxioms.div_spec.
  change (Prim2SF (1 - STRIPE_PERCENTAGE_FEE / 100)) with SFc.
  apply divc_xrounds. exact N.
Qed.

Lemma Math_round_rounds_fun :
  rounds_fun Math_round (fun v => inject_Z (Qfloor (v + (1 # 2)))).
Proof. exact Math_round_xrounds. Qed.

(** [Math.round] is monotone on non-negative numbers. *)
Lemma Math_round_mono x y :
  (0 <=? x)%float = true -> (x <=? y)%float = true ->
  (Math_round x <=? Math_round y)%float = true.
Proof.
  intros H0 L.
  apply (rounds_fun_mono _ _ x y Math_round_rounds_fun); auto using nonneg_of_leb.
  intros u v H. rewrite <- Zle_Qle. apply Qfloor_resp_le. lra.
Qed.

End NumberFacts.

(** * [calculatePriceWithStripeFees] on non-negative amounts *)

Module PriceFacts.

Import Rounding Binary64 Extended NumberFacts.
Local Open Scope Z_scope.

Lemma floor_half_mono u v :
  (u <= v)%Q -> (inject_Z (Qfloor (u + (1 # 2))) <= inject_Z (Qfloor (v + (1 # 2))))%Q.
Proof. intros H. rewrite <- Zle_Qle. apply Qfloor_resp_le. lra. Qed.

Lemma divc_mono u v : (u <= v)%Q -> (u * / vc <= v * / vc)%Q.
Proof.
  intros H. apply Qmult_le_compat_r; [ exact H | ].
  apply Qlt_le_weak, Qinv_lt_0_compat, vc_bounds.
Qed.

(** Monotone on every pair of non-negative numbers, integral or not. *)
Lemma calculatePriceWithStripeFees_mono_nonneg (a b : number) :
  (0 <=? a)%float = true -> (a <=? b)%float = true ->
  (calculatePriceWithStripeFees a <=? calculatePriceWithStripeFees b)%float = true.
Proof.
  intros H0 L. unfold calculatePriceWithStripeFees.
  pose proof (nonneg_of_leb a H0) as Na.
  assert (G : forall u v : Q, (u <= v)%Q -> (u + 30 <= v + 30)%Q) by (intros; lra).
  pose proof (rounds_fun_mono _ _ a b add30_rounds_fun G Na L) as L1.
  pose proof (rounds_fun_nonneg _ _ a add30_rounds_fun Na) as N1.
  cbv beta in L1, N1.
  pose proof (rounds_fun_mono _ _ _ _ divc_rounds_fun divc_mono N1 L1) as L2.
  pose proof (rounds_fun_nonneg _ _ _ divc_rounds_fun N1) as N2.
  cbv beta in L2, N2.
  exact (rounds_fun_mono _ _ _ _ Math_round_rounds_fun floor_half_mono N2 L2).
Qed.

(** Integral values stay integral under rounding. *)
Lemma located_int T m l :
  located (inject_Z T) m l -> m = T /\ round_nearest_even m l = m.
Proof.
  intros H.
  assert (L : l = loc_Exact \/ (inject_Z m < inject_Z T /\ inject_Z T < inject_Z m + 1)%Q).
  { destruct l as [|[| |]]; cbv beta iota delta [located] in H; [ left; reflexivity | right; lra .. ]. }
  destruct L as [->|[A B]].
  - split; [ | reflexivity ]. symmetry. apply inject_Z_injective. exact H.
  - exfalso. rewrite <- Zlt_Qlt in A. apply inject_Z_lt_succ in B. lia.
Qed.

Lemma pack_integral r e : 0 <= r -> 0 <= e -> integral (xval (pack r e)).
Proof.
  intros Hr He. unfold pack.
  repeat match goal with
  | |- context [Z.eqb ?a ?b] => destruct (Z.eqb_spec a b)
  | |- context [Z.ltb ?a ?b] => destruct (Z.ltb_spec a b)
  | |- context [Z.leb ?a ?b] => destruct (Z.leb_spec a b)
  end; cbn [xval integral]; try exact I.
  - exists 0. reflexivity.
  - exists (r * 2 ^ e). rewrite Z2Pos.id by lia.
    rewrite inject_Z_mult, pow2_Z by lia. reflexivity.
  - exists (2 ^ 52 * 2 ^ (e + 1)). rewrite Z2Pos.id by lia.
    rewrite inject_Z_mult, (pow2_Z (e + 1)) by lia. reflexivity.
Qed.

(** An integer rounds to an integral number. *)
Lemma rounds_integral N f :
  rounds_to (inject_Z N) f -> integral (xval f).
Proof.
  intros [s Z|m e l P Nm].
  - exists 0. reflexivity.
  - pose proof (normal_facts _ _ _ _ Nm) as (Hm & He & _).
    pose proof (round_nearest_even_bounds m l) as Hr.
    destruct (Z.le_gt_cases 0 e) as [E0|E0].
    + apply pack_integral; lia.
    + destruct Nm as (_ & B & _).
      assert (EQ : (inject_Z N * pow2 (- e) == inject_Z (N * 2 ^ (- e)))%Q).
      { rewrite inject_Z_mult, pow2_Z by lia. reflexivity. }
      apply (located_ext _ _ _ _ EQ) in B.
      apply located_int in B. destruct B as [Em ->].
      unfold pack.
      destruct (Z.eqb_spec m 0); [ exists 0; reflexivity | ].
      destruct (Z.ltb_spec m (2 ^ 53)); [ | lia ].
      destruct (Z.leb_spec e 971); cbn [xval integral]; [ | exact I ].
      exists N. rewrite Z2Pos.id by lia. rewrite Em, inject_Z_mult, pow2_Z by lia.
      rewrite <- Qmult_assoc, <- pow2_add. replace (- e + e) with 0 by lia.
      change (pow2 0) with 1%Q. ring.
Qed.


Lemma isInteger_integral b :
  Number_isInteger b = true -> nonneg (Prim2SF b) ->
  exists q K, xval (Prim2SF b) = Some q /\ (q == inject_Z K)%Q.
Proof.
  unfold Number_isInteger. intros I N.
  destruct (Prim2SF b) as [s|[|]| |[|] m e]; simpl in N; try tauto;
    try discriminate; try (destruct N; discriminate).
  - exists 0%Q, 0. split; reflexivity.
  - assert (C : 0 <= e \/ (e < 0 /\ Zpos m mod 2 ^ (- e) = 0)).
    { apply orb_prop in I. destruct I as [I|I].
      - left. apply Z.leb_le. exact I.
      - apply Z.eqb_eq in I. lia. }
    eexists. destruct C as [E0|[E0 M]].
    + exists (Zpos m * 2 ^ e). split; [ reflexivity | ].
      rewrite inject_Z_mult, pow2_Z by lia. reflexivity.
    + assert (P : 0 < 2 ^ (- e)) by (apply Z.pow_pos_nonneg; lia).
      pose proof (Z.div_mod (Zpos m) (2 ^ (- e)) ltac:(lia)) as D.
      rewrite M, Z.add_0_r in D.
      exists (Zpos m / 2 ^ (- e)). split; [ reflexivity | ].
      rewrite D at 1. rewrite inject_Z_mult, pow2_Z by lia.
      rewrite (Qmult_comm (pow2 (- e))), <- Qmult_assoc, <- pow2_add.
      replace (- e + e) with 0 by lia. change (pow2 0) with 1%Q. ring.
Qed.

Lemma add30_integral b :
  Number_isInteger b = true -> nonneg (Prim2SF b) ->
  integral (xval (Prim2SF (b + STRIPE_FIXED_FEE_CENTS)%float)).
Proof.
  intros I N. pose proof (add30_rounds_fun b N) as R. cbv beta in R.
  destruct (isInteger_integral b I N) as (q & K & E & Q). rewrite E in R.
  cbn [option_map xrounds] in R. destruct R as [_ R].
  apply (rounds_integral (K + 30)). eapply rounds_to_ext; [ | exact R ].
  rewrite inject_Z_plus, Q. reflexivity.
Qed.

Lemma inv_vc_ge_1 : (1 <= / vc)%Q.
Proof. vm_compute. discriminate. Qed.

(** The charge is at least the base price plus the fixed fee. *)
Lemma calculatePriceWithStripeFees_lower_bound (b : number) :
  Number_isInteger b = true -> (0 <=? b)%float = true ->
  (b + STRIPE_FIXED_FEE_CENTS <=? calculatePriceWithStripeFees b)%float = true.
Proof.
  intros I H0. unfold calculatePriceWithStripeFees.
  pose proof (nonneg_of_leb b H0) as Nb.
  pose proof (add30_integral b I Nb) as Ix.
  pose proof (rounds_fun_nonneg _ _ b add30_rounds_fun Nb) as Nx. cbv beta in Nx.
  remember (b + STRIPE_FIXED_FEE_CENTS)%float as x eqn:Hx. clear Hx I H0 Nb b.
  pose proof (divc_rounds_fun x Nx) as Rz. cbv beta in Rz.
  pose proof (rounds_fun_nonneg _ _ x divc_rounds_fun Nx) as Nz. cbv beta in Nz.
  remember (x / (1 - STRIPE_PERCENTAGE_FEE / 100))%float as z eqn:Hz. clear Hz.
  pose proof (Math_round_rounds_fun z Nz) as Rm.
  pose proof (nonneg_xrounds _ Nx) as Rx.
  assert (Lxz : xle (xval (Prim2SF x)) (xval (Prim2SF z))).
  { apply leb_xle; try assumption.
    eapply xrounds_mono; [ exact Rx | exact Rz | ].
    pose proof (xval_nonneg (Prim2SF x)) as P.
    destruct (xval (Prim2SF x)) as [q|]; cbn [option_map xle]; [ | exact I ].
    pose proof inv_vc_ge_1 as V.
    assert (0 <= q * (/ vc - 1))%Q by (apply Qmult_le_0_compat; lra).
    lra. }
  rewrite FloatAxioms.leb_spec.
  eapply xrounds_mono; [ exact Rx | exact Rm | ].
  destruct (xval (Prim2SF x)) as [q|], (xval (Prim2SF z)) as [v|];
    cbn [option_map xle integral] in *; try tauto.
  destruct Ix as [K EK].
  rewrite EK in Lxz. rewrite EK.
  rewrite <- (Qfloor_half K) at 1.
  apply floor_half_mono. exact Lxz.
Qed.

End PriceFacts.

(** * Properties *)

(** ** [Math.round] and [Number.isInteger] at sample inputs *)

Module JSExamples.

Example Math_round_ties_up :
  Math_round 2.5 = 3 /\ Math_round (-2.5) = -2 /\ Math_round 14.5 = 15.
Proof. repeat split; vm_compute; reflexivity. Qed.

Example Math_round_small :
  Math_round 0.49999999999999994 = 0 /\ Math_round 0.5 = 1 /\
  Math_round (-0.5) = neg_zero /\ Math_round (-0.2) = neg_zero /\
  Math_round 30.896 = 31.
Proof. repeat split; vm_compute; reflexivity. Qed.

Example Math_round_fixes :
  Math_round 1061 = 1061 /\ Math_round 9007199254740993 = 9007199254740992 /\
  Math_round infinity = infinity /\ Math_round nan = nan /\
  Math_round neg_zero = neg_zero.
Proof. repeat split; vm_compute; reflexivity. Qed.

Example Number_isInteger_samples :
  Number_isInteger 1000 = true /\ Number_isInteger 0 = true /\
  Number_isInteger 19.99 = false /\ Number_isInteger nan = false /\
  Number_isInteger infinity = false.
Proof. repeat split; vm_compute; reflexivity. Qed.

(** The constants of the price formula, as [Rounding] names them. *)
Example price_constants :
  Prim2SF STRIPE_FIXED_FEE_CENTS = Rounding.SF30 /\
  Prim2SF (1 - STRIPE_PERCENTAGE_FEE / 100) = Rounding.SFc.
Proof. split; vm_compute; reflexivity. Qed.

End JSExamples.

(** ** The engine at the amounts the claims single out *)

Module EngineFacts.

(** The amount 31 is the one whose implied base price rounds to zero. *)
Lemma basePrice_31 : basePrice 31 = 0.
Proof. vm_compute. reflexivity. Qed.

Lemma platformProportion_31 :
  platformProportion DEFAULT_PLATFORM_FEE_PERCENTAGE 31 = nan.
Proof. vm_compute. reflexivity. Qed.

(** C2 (failing input 31): the implied base price of 31 is zero, the source
    has no branch for it, [platformProportion] is [0 / 0], and both shares
    come out as [NaN] instead of the pair of zeros the claim asks for. *)
Theorem calculateFees_zero_base_price_is_nan :
  basePrice 31 = 0 /\
  calculateFees DEFAULT_PLATFORM_FEE_PERCENTAGE 31
    = {| platformFee := nan; instructorAmount := nan |} /\
  (platformFee (calculateFees DEFAULT_PLATFORM_FEE_PERCENTAGE 31) =? 0) = false /\
  (instructorAmount (calculateFees DEFAULT_PLATFORM_FEE_PERCENTAGE 31) =? 0) = false.
Proof. repeat split; vm_compute; reflexivity. Qed.

(** C1 (failing input 31): the two shares of the charge amount 31 do not sum
    to 31, in the sense of JavaScript's [===]: their sum is [NaN]. *)
Theorem calculateFees_31_not_conserved :
  let r := calculateFees DEFAULT_PLATFORM_FEE_PERCENTAGE 31 in
  (platformFee r + instructorAmount r =? 31) = false /\
  Number_isNaN (platformFee r + instructorAmount r) = true.
Proof. split; vm_compute; reflexivity. Qed.

(** C8 (failing input 31): neither share of the charge amount 31 satisfies
    [>= 0]. *)
Theorem calculateFees_31_not_nonnegative :
  let r := calculateFees DEFAULT_PLATFORM_FEE_PERCENTAGE 31 in
  (0 <=? platformFee r) = false /\ (0 <=? instructorAmount r) = false.
Proof. split; vm_compute; reflexivity. Qed.

Lemma all_from_spec p n : forall z,
  all_from p z n = true -> forall c, (z <= c < z + Z.of_nat n)%Z -> p c = true.
Proof.
  induction n as [|n IH]; cbn [all_from]; intros z H c Hc; [ lia | ].
  apply andb_prop in H. destruct H as [H1 H2].
  destruct (Z.eq_dec c z) as [->|Ne]; [ exact H1 | ].
  apply (IH (z + 1)%Z H2). lia.
Qed.

(** The defect is confined to the amount 31: every other whole amount
    below 20000 cents is split into two non-negative shares that sum to
    it. *)
Lemma calculateFees_sound_below_20000 (c : Z) :
  (0 <= c < 20000)%Z -> c <> 31%Z ->
  split_ok DEFAULT_PLATFORM_FEE_PERCENTAGE (of_Z c) = true.
Proof.
  intros Hc Ne.
  assert (A : all_from
                (fun z => (z =? 31)%Z
                          || split_ok DEFAULT_PLATFORM_FEE_PERCENTAGE (of_Z z))
                0 (Z.to_nat 20000) = true) by (vm_compute; reflexivity).
  pose proof (all_from_spec _ _ _ A c) as H. cbv beta in H.
  rewrite Z2Nat.id in H by lia. specialize (H ltac:(lia)).
  destruct (Z.eqb_spec c 31) as [E|_]; [ contradiction | exact H ].
Qed.

(** C5 (counterexample): at base price 0 the charge is not 30. *)
Lemma calculatePriceWithStripeFees_0_not_30 :
  (calculatePriceWithStripeFees 0 =? 30) = false.
Proof. vm_compute. reflexivity. Qed.

(** C5 (amended): with the constants 15, 2.9 and 30, the charge for the base
    price 0 is exactly 31, that is [Math.round(30 / 0.971)]. *)
Theorem calculatePriceWithStripeFees_0 :
  calculatePriceWithStripeFees 0 = 31.
Proof. vm_compute. reflexivity. Qed.

(** C6 (counterexample): at the amount 1061 the counterparty share is 902,
    one less than its own rounded value 903, and the platform share is 159,
    not the remainder 158 the claim describes. *)
Lemma calculateFees_1061_not_platform_absorbing :
  let r := calculateFees DEFAULT_PLATFORM_FEE_PERCENTAGE 1061 in
  let s := splitFees_platform_absorbs DEFAULT_PLATFORM_FEE_PERCENTAGE 1061 in
  (instructorAmount r =? instructorAmount s) = false /\
  (platformFee r =? platformFee s) = false /\
  instructorAmount r = 902 /\ instructorAmount s = 903 /\
  platformFee r = 159 /\ platformFee s = 158.
Proof. repeat split; vm_compute; reflexivity. Qed.

(** C6 (amended): for every amount and every configured percentage, the
    platform share is its own rounded value, the rounded base fee plus the
    rounded share of the processor fee, and the counterparty share is the
    amount minus the platform share: the remainder goes to the
    counterparty. *)
Theorem calculateFees_remainder_to_instructor (pct amount : number) :
  platformFee (calculateFees pct amount)
    = basePlatformFee pct amount + platformShareOfStripeFee pct amount /\
  basePlatformFee pct amount = Math_round ((basePrice amount * pct) / 100) /\
  platformShareOfStripeFee pct amount
    = Math_round (totalStripeFee amount * (basePlatformFee pct amount / basePrice amount)) /\
  instructorAmount (calculateFees pct amount)
    = amount - platformFee (calculateFees pct amount).
Proof. repeat split; reflexivity. Qed.

(** C7 (counterexample): a negative amount and a fractional amount both
    complete normally; nothing is thrown. *)
Lemma engine_accepts_invalid_amounts :
  calculateFees_completion DEFAULT_PLATFORM_FEE_PERCENTAGE (-1)
    = Normal {| platformFee := 0; instructorAmount := -1 |} /\
  calculateFees_completion DEFAULT_PLATFORM_FEE_PERCENTAGE (-1) <> Throw InvalidAmount /\
  calculatePriceWithStripeFees_completion 0.5 = Normal 31 /\
  calculatePriceWithStripeFees_completion 0.5 <> Throw InvalidAmount.
Proof.
  repeat split; try discriminate; vm_compute; reflexivity.
Qed.

(** C7 (amended): neither engine function signals an error, whatever number
    it is given; each call completes normally with a value. *)
Theorem engine_never_throws :
  (forall pct amount : number,
      exists v, calculateFees_completion pct amount = Normal v) /\
  (forall b : number,
      exists v, calculatePriceWithStripeFees_completion b = Normal v).
Proof.
  split; intros; eexists; reflexivity.
Qed.

End EngineFacts.

(** ** The two call sites *)

Module CallSites.

(** C3 (failing input: a lesson priced 10 dollars): the line item carries
    the charge for 1000 cents, 1061, but the application fee, 150, is the
    platform share of the base price 1000, not that of the charge 1061,
    which is 159. *)
Theorem checkout_application_fee_from_base_price :
  let p := Checkout.sessionParams DEFAULT_PLATFORM_FEE_PERCENTAGE 10 in
  Checkout.unit_amount p = calculatePriceWithStripeFees 1000 /\
  Checkout.unit_amount p = 1061 /\
  Checkout.application_fee_amount p
    = platformFee (calculateFees DEFAULT_PLATFORM_FEE_PERCENTAGE 1000) /\
  Checkout.application_fee_amount p = 150 /\
  platformFee (calculateFees DEFAULT_PLATFORM_FEE_PERCENTAGE (Checkout.unit_amount p)) = 159 /\
  (Checkout.application_fee_amount p
   =? platformFee (calculateFees DEFAULT_PLATFORM_FEE_PERCENTAGE (Checkout.unit_amount p)))
  = false.
Proof. repeat split; vm_compute; reflexivity. Qed.

(** C4 (failing input: base price 1000 cents): the split made when the
    session is created is 150 / 850; the split the verification route
    recomputes from the session's total 1061 is 159 / 902. *)
Theorem checkout_and_verify_splits_differ :
  let atCheckout :=
    calculateFees DEFAULT_PLATFORM_FEE_PERCENTAGE (Checkout.priceInCents 10) in
  let session :=
    {| Verify.amount_total :=
         Some (Checkout.unit_amount (Checkout.sessionParams DEFAULT_PLATFORM_FEE_PERCENTAGE 10));
       Verify.instructorPayoutAmount_meta := None |} in
  let atVerify := Verify.recomputedSplit DEFAULT_PLATFORM_FEE_PERCENTAGE session in
  atCheckout = {| platformFee := 150; instructorAmount := 850 |} /\
  atVerify = calculateFees DEFAULT_PLATFORM_FEE_PERCENTAGE (calculatePriceWithStripeFees 1000) /\
  atVerify = {| platformFee := 159; instructorAmount := 902 |} /\
  (platformFee atCheckout =? platformFee atVerify) = false /\
  (instructorAmount atCheckout =? instructorAmount atVerify) = false.
Proof. repeat split; vm_compute; reflexivity. Qed.

(** The record the verification route writes for that purchase takes the
    instructor payout from the metadata written at checkout (850 cents)
    and the platform fee from its own recomputation (159 cents): the two
    do not add up to the 1061 cents charged. *)
Lemma purchase_record_mixes_the_two_splits :
  let p := Checkout.sessionParams DEFAULT_PLATFORM_FEE_PERCENTAGE 10 in
  let session :=
    {| Verify.amount_total := Some (Checkout.unit_amount p);
       Verify.instructorPayoutAmount_meta :=
         Some (Checkout.metadata_instructorPayoutAmount p) |} in
  let record := Verify.purchaseData DEFAULT_PLATFORM_FEE_PERCENTAGE session in
  Verify.instructor_payout_amount record = Some (850 / 100) /\
  Verify.platform_fee_amount record = 159 / 100 /\
  Verify.amount record = 1061 / 100.
Proof. repeat split; vm_compute; reflexivity. Qed.

End CallSites.

(** ** The customer-facing price *)

Module PriceTheorems.

(** C9: [calculatePriceWithStripeFees] is non-decreasing: for non-negative
    integers [a <= b] the charge for [a] is at most the charge for [b].
    (The integrality of [a] and [b] is not used.) *)
Theorem calculatePriceWithStripeFees_monotone (a b : number) :
  Number_isInteger a = true -> Number_isInteger b = true ->
  (0 <=? a) = true -> (a <=? b) = true ->
  (calculatePriceWithStripeFees a <=? calculatePriceWithStripeFees b) = true.
Proof.
  intros _ _. apply PriceFacts.calculatePriceWithStripeFees_mono_nonneg.
Qed.

Lemma calculatePriceWithStripeFees_monotone_witness :
  Number_isInteger 1000 = true /\ Number_isInteger 1999 = true /\
  (0 <=? 1000) = true /\ (1000 <=? 1999) = true /\
  (calculatePriceWithStripeFees 1000 <=? calculatePriceWithStripeFees 1999) = true.
Proof.
  split; [ vm_compute; reflexivity | ].
  split; [ vm_compute; reflexivity | ].
  split; [ vm_compute; reflexivity | ].
  split; [ vm_compute; reflexivity | ].
  apply (calculatePriceWithStripeFees_monotone 1000 1999); vm_compute; reflexivity.
Defined.

(** C10: for every non-negative integer base price the charge is at least
    the base price plus the fixed fee of 30, the sum being JavaScript's;
    the charge for the base price 0 is strictly positive. *)
Theorem calculatePriceWithStripeFees_at_least_base_plus_fixed_fee (b : number) :
  Number_isInteger b = true -> (0 <=? b) = true ->
  (b + STRIPE_FIXED_FEE_CENTS <=? calculatePriceWithStripeFees b) = true /\
  (0 <? calculatePriceWithStripeFees 0) = true.
Proof.
  intros I H0. split.
  - apply PriceFacts.calculatePriceWithStripeFees_lower_bound; assumption.
  - vm_compute. reflexivity.
Qed.

Lemma calculatePriceWithStripeFees_at_least_base_plus_fixed_fee_witness :
  Number_isInteger 1000 = true /\ (0 <=? 1000) = true /\
  (1000 + STRIPE_FIXED_FEE_CENTS <=? calculatePriceWithStripeFees 1000) = true /\
  (0 <? calculatePriceWithStripeFees 0) = true.
Proof.
  split; [ vm_compute; reflexivity | ].
  split; [ vm_compute; reflexivity | ].
  apply (calculatePriceWithStripeFees_at_least_base_plus_fixed_fee 1000);
    vm_compute; reflexivity.
Defined.

End PriceTheorems.

(** * Further properties: the engine, its configuration and the routes *)

(** ** Further properties of the engine *)

Module EngineExtras.

Import Rounding Binary64 Extended NumberFacts PriceFacts.

(** *** NaN in, NaN out *)

Lemma nan_of_Prim2SF x : Prim2SF x = S754_nan -> x = nan.
Proof. intros H. apply Prim2SF_inj. rewrite H. reflexivity. Qed.

Lemma mul_nan_r x : (x * nan)%float = nan.
Proof.
  apply nan_of_Prim2SF. rewrite FloatAxioms.mul_spec.
  change (Prim2SF nan) with S754_nan. unfold SF64mul, SFmul.
  destruct (Prim2SF x); reflexivity.
Qed.

Lemma mul_nan_l x : (nan * x)%float = nan.
Proof.
  apply nan_of_Prim2SF. rewrite FloatAxioms.mul_spec.
  change (Prim2SF nan) with S754_nan. reflexivity.
Qed.

Lemma div_nan_l x : (nan / x)%float = nan.
Proof.
  apply nan_of_Prim2SF. rewrite FloatAxioms.div_spec.
  change (Prim2SF nan) with S754_nan. reflexivity.
Qed.

Lemma div_nan_r x : (x / nan)%float = nan.
Proof.
  apply nan_of_Prim2SF. rewrite FloatAxioms.div_spec.
  change (Prim2SF nan) with S754_nan. unfold SF64div, SFdiv.
  destruct (Prim2SF x); reflexivity.
Qed.

Lemma add_nan_l x : (nan + x)%float = nan.
Proof.
  apply nan_of_Prim2SF. rewrite FloatAxioms.add_spec.
  change (Prim2SF nan) with S754_nan. reflexivity.
Qed.

Lemma add_nan_r x : (x + nan)%float = nan.
Proof.
  apply nan_of_Prim2SF. rewrite FloatAxioms.add_spec.
  change (Prim2SF nan) with S754_nan. unfold SF64add, SFadd.
  destruct (Prim2SF x); reflexivity.
Qed.

Lemma sub_nan_l x : (nan - x)%float = nan.
Proof.
  apply nan_of_Prim2SF. rewrite FloatAxioms.sub_spec.
  change (Prim2SF nan) with S754_nan. reflexivity.
Qed.

Lemma sub_nan_r x : (x - nan)%float = nan.
Proof.
  apply nan_of_Prim2SF. rewrite FloatAxioms.sub_spec.
  change (Prim2SF nan) with S754_nan. unfold SF64sub, SFsub.
  destruct (Prim2SF x); reflexivity.
Qed.

Lemma Math_round_nan : Math_round nan = nan.
Proof. reflexivity. Qed.

Ltac nan_simpl :=
  repeat first
    [ rewrite mul_nan_l | rewrite mul_nan_r | rewrite div_nan_l | rewrite div_nan_r
    | rewrite add_nan_l | rewrite add_nan_r | rewrite sub_nan_l | rewrite sub_nan_r
    | rewrite Math_round_nan ].

Lemma calculateFees_nan_percentage (amount : number) :
  calculateFees nan amount = {| platformFee := nan; instructorAmount := nan |}.
Proof. unfold calculateFees; cbv zeta; nan_simpl; reflexivity. Qed.

Lemma calculateFees_nan_amount (pct : number) :
  calculateFees pct nan = {| platformFee := nan; instructorAmount := nan |}.
Proof. unfold calculateFees; cbv zeta; nan_simpl; reflexivity. Qed.

(** X1: [calculateFees] has no check for [NaN]: a fee percentage that is
    [NaN] makes both shares [NaN] for every amount, and an amount that is
    [NaN] makes both shares [NaN] for every percentage. *)
Theorem calculateFees_nan (x : number) :
  calculateFees nan x = {| platformFee := nan; instructorAmount := nan |} /\
  calculateFees x nan = {| platformFee := nan; instructorAmount := nan |}.
Proof.
  split; [ apply calculateFees_nan_percentage | apply calculateFees_nan_amount ].
Qed.

(** *** The charge is a whole number of cents *)

Lemma integral_isInteger (x : number) :
  nonneg (Prim2SF x) -> integral (xval (Prim2SF x)) ->
  Number_isInteger x = true \/ x = infinity.
Proof.
  unfold Number_isInteger. intros N I.
  destruct (Prim2SF x) as [s|[|]| |[|] m e] eqn:E; simpl in N; try tauto;
    try discriminate; try (destruct N; discriminate).
  - right. apply Prim2SF_inj. rewrite E. reflexivity.
  - left. cbn [xval integral] in I. destruct I as [K EK].
    destruct (Z.leb_spec 0 e) as [He|He]; [ reflexivity | ].
    cbn [orb]. apply Z.eqb_eq.
    assert (M : Zpos m = (K * 2 ^ (- e))%Z).
    { apply inject_Z_injective. rewrite inject_Z_mult, pow2_Z by lia.
      rewrite <- EK, <- Qmult_assoc, <- pow2_add. replace (e + - e)%Z with 0%Z by lia.
      change (pow2 0) with 1%Q. ring. }
    rewrite M. apply Z.mod_mul. apply Z.pow_nonzero; lia.
Qed.

(** X2: for every non-negative base price, whole or not, the charge
    [calculatePriceWithStripeFees] returns is a whole number of cents; the
    one exception is [Infinity], when the base price is so large that the
    division overflows.  It is never [NaN] and never fractional. *)
Theorem calculatePriceWithStripeFees_whole_cents (b : number) :
  (0 <=? b) = true ->
  Number_isInteger (calculatePriceWithStripeFees b) = true
  \/ calculatePriceWithStripeFees b = infinity.
Proof.
  intros H0. unfold calculatePriceWithStripeFees.
  pose proof (nonneg_of_leb b H0) as Nb.
  pose proof (rounds_fun_nonneg _ _ b add30_rounds_fun Nb) as Nx. cbv beta in Nx.
  pose proof (rounds_fun_nonneg _ _ _ divc_rounds_fun Nx) as Nz. cbv beta in Nz.
  remember ((b + STRIPE_FIXED_FEE_CENTS) / (1 - STRIPE_PERCENTAGE_FEE / 100)) as z eqn:Hz.
  clear Hz Nx Nb H0 b.
  pose proof (Math_round_rounds_fun z Nz) as Rm.
  pose proof (rounds_fun_nonneg _ _ z Math_round_rounds_fun Nz) as Nm.
  apply integral_isInteger; [ exact Nm | ].
  destruct (xval (Prim2SF z)) as [v|]; cbn [option_map xrounds] in Rm.
  - destruct Rm as [_ R]. exact (rounds_integral _ _ R).
  - rewrite Rm. exact I.
Qed.

Lemma calculatePriceWithStripeFees_whole_cents_witness :
  (0 <=? 19.99) = true /\
  (Number_isInteger (calculatePriceWithStripeFees 19.99) = true
   \/ calculatePriceWithStripeFees 19.99 = infinity).
Proof.
  split; [ vm_compute; reflexivity | ].
  apply (calculatePriceWithStripeFees_whole_cents 19.99). vm_compute. reflexivity.
Defined.

(** X3: no non-negative base price is charged less than 31 cents, and a
    base price of at least one cent is charged at least 32: the amount 31,
    at which [calculateFees] returns [NaN], is the charge of base prices
    below one cent only. *)
Theorem calculatePriceWithStripeFees_minimum (b : number) :
  (0 <=? b) = true ->
  (31 <=? calculatePriceWithStripeFees b) = true /\
  ((1 <=? b) = true -> (32 <=? calculatePriceWithStripeFees b) = true).
Proof.
  intros H0. split.
  - pose proof (calculatePriceWithStripeFees_mono_nonneg 0 b eq_refl H0) as L.
    assert (E : calculatePriceWithStripeFees 0 = 31) by (vm_compute; reflexivity).
    rewrite E in L. exact L.
  - intros H1.
    pose proof (calculatePriceWithStripeFees_mono_nonneg 1 b eq_refl H1) as L.
    assert (E : calculatePriceWithStripeFees 1 = 32) by (vm_compute; reflexivity).
    rewrite E in L. exact L.
Qed.

Lemma calculatePriceWithStripeFees_minimum_witness :
  (0 <=? 0.5) = true /\
  (31 <=? calculatePriceWithStripeFees 0.5) = true /\
  ((1 <=? 0.5) = true -> (32 <=? calculatePriceWithStripeFees 0.5) = true).
Proof.
  split; [ vm_compute; reflexivity | ].
  apply (calculatePriceWithStripeFees_minimum 0.5). vm_compute. reflexivity.
Defined.

(** *** One run over the whole base prices from 1 cent to 199.99 dollars *)

Import Pipeline.

Lemma pipeline_sweep : all_from pipeline_ok 1 (Z.to_nat 19999) = true.
Proof. vm_compute. reflexivity. Qed.

Lemma pipeline_ok_below_20000 (c : Z) : (1 <= c < 20000)%Z -> pipeline_ok c = true.
Proof.
  intros Hc. apply (EngineFacts.all_from_spec _ _ _ pipeline_sweep c).
  rewrite Z2Nat.id by lia. lia.
Qed.

Ltac sweep_part c Hc :=
  pose proof (pipeline_ok_below_20000 c Hc) as P; unfold pipeline_ok in P; cbv zeta in P;
  do 3 (apply andb_prop in P; let Q := fresh "Q" in destruct P as [P Q]).

(** X4: charge, then split, as the fee tests do: for every whole base
    price from 1 to 19999 cents the two shares of the charge are
    non-negative and sum to the charge. *)
Theorem chargeSplit_sound_below_20000 (c : Z) :
  (1 <= c < 20000)%Z ->
  let r := chargeSplit DEFAULT_PLATFORM_FEE_PERCENTAGE (of_Z c) in
  (platformFee r + instructorAmount r =? calculatePriceWithStripeFees (of_Z c)) = true
  /\ (0 <=? platformFee r) = true /\ (0 <=? instructorAmount r) = true.
Proof.
  intros Hc r. sweep_part c Hc. unfold split_ok in P. cbv zeta in P.
  apply andb_prop in P. destruct P as [P P3].
  apply andb_prop in P. destruct P as [P1 P2].
  repeat split; assumption.
Qed.

Lemma chargeSplit_sound_below_20000_witness :
  (1 <= 1999 < 20000)%Z /\
  let r := chargeSplit DEFAULT_PLATFORM_FEE_PERCENTAGE (of_Z 1999) in
  (platformFee r + instructorAmount r =? calculatePriceWithStripeFees (of_Z 1999)) = true
  /\ (0 <=? platformFee r) = true /\ (0 <=? instructorAmount r) = true.
Proof.
  split; [ lia | ]. apply (chargeSplit_sound_below_20000 1999). lia.
Defined.

(** X5: the base price [calculateFees] works back from a charge is not
    always the base price the charge was computed for (the charge divides
    by 1 - 0.029, the way back by 1 + 0.029): for every whole base price
    [b] from 1 to 19999 cents it is at least [b] and at most
    [b + 1 + b / 1000]; at 1000 it is 1001. *)
Theorem implied_base_price_bounds (c : Z) :
  (1 <= c < 20000)%Z ->
  let implied := basePrice (calculatePriceWithStripeFees (of_Z c)) in
  (of_Z c <=? implied) = true /\ (implied <=? of_Z c + 1 + of_Z c / 1000) = true.
Proof.
  intros Hc implied. sweep_part c Hc. unfold implied_base_ok in Q1. cbv zeta in Q1.
  apply andb_prop in Q1. exact Q1.
Qed.

Lemma implied_base_price_bounds_witness :
  (1 <= 1000 < 20000)%Z /\
  let implied := basePrice (calculatePriceWithStripeFees (of_Z 1000)) in
  (of_Z 1000 <=? implied) = true /\ (implied <=? of_Z 1000 + 1 + of_Z 1000 / 1000) = true.
Proof.
  split; [ lia | ]. apply (implied_base_price_bounds 1000). lia.
Defined.

(** X6: the checkout route's conversions between dollars and cents lose
    nothing: for a price of [c] cents, 1 <= c < 20000, sent in dollars as
    [c / 100], [Math.round(price * 100)] is [c] again and the unit amount
    [Math.round(calculatePriceWithStripeFees(price * 100) / 100 * 100)] is
    the charge for [c]. *)
Theorem checkout_cents_conversions_exact (c : Z) :
  (1 <= c < 20000)%Z ->
  (Checkout.priceInCents (dollars (of_Z c)) =? of_Z c) = true /\
  (Checkout.priceWithFeesInCents (dollars (of_Z c))
     =? calculatePriceWithStripeFees (of_Z c)) = true.
Proof.
  intros Hc. sweep_part c Hc. unfold conversions_ok in Q0.
  apply andb_prop in Q0. exact Q0.
Qed.

Lemma checkout_cents_conversions_exact_witness :
  (1 <= 1999 < 20000)%Z /\
  (Checkout.priceInCents (dollars (of_Z 1999)) =? of_Z 1999) = true /\
  (Checkout.priceWithFeesInCents (dollars (of_Z 1999))
     =? calculatePriceWithStripeFees (of_Z 1999)) = true.
Proof.
  split; [ lia | ]. apply (checkout_cents_conversions_exact 1999). lia.
Defined.

(** X7: the assertion of the test 'should maintain correct fee
    proportions' holds for every whole base price from 31 to 19999 cents:
    the instructor's part of the charge is within 0.02 of
    [Math.round(basePrice * INSTRUCTOR_PERCENTAGE / 100) / basePrice]. *)
Theorem fee_proportion_below_20000 (c : Z) :
  (31 <= c < 20000)%Z ->
  proportion_ok DEFAULT_PLATFORM_FEE_PERCENTAGE (of_Z c) = true.
Proof.
  intros Hc. assert (Hc' : (1 <= c < 20000)%Z) by lia. sweep_part c Hc'.
  destruct (Z.ltb_spec c 31) as [L|_]; [ lia | exact Q ].
Qed.

Lemma fee_proportion_below_20000_witness :
  (31 <= 1000 < 20000)%Z /\
  proportion_ok DEFAULT_PLATFORM_FEE_PERCENTAGE (of_Z 1000) = true.
Proof.
  split; [ lia | ]. apply (fee_proportion_below_20000 1000). lia.
Defined.

(** X8: [calculateFees] at the default percentage splits every whole
    amount below 20000 cents other than 31 into two non-negative shares
    that sum to the amount. *)
Theorem calculateFees_split_below_20000 (c : Z) :
  (0 <= c < 20000)%Z -> c <> 31%Z ->
  let r := calculateFees DEFAULT_PLATFORM_FEE_PERCENTAGE (of_Z c) in
  (platformFee r + instructorAmount r =? of_Z c) = true
  /\ (0 <=? platformFee r) = true /\ (0 <=? instructorAmount r) = true.
Proof.
  intros Hc Ne r.
  pose proof (EngineFacts.calculateFees_sound_below_20000 c Hc Ne) as P.
  unfold split_ok in P. cbv zeta in P.
  apply andb_prop in P. destruct P as [P P3].
  apply andb_prop in P. destruct P as [P1 P2].
  repeat split; assumption.
Qed.

Lemma calculateFees_split_below_20000_witness :
  (0 <= 1061 < 20000)%Z /\ 1061%Z <> 31%Z /\
  let r := calculateFees DEFAULT_PLATFORM_FEE_PERCENTAGE (of_Z 1061) in
  (platformFee r + instructorAmount r =? of_Z 1061) = true
  /\ (0 <=? platformFee r) = true /\ (0 <=? instructorAmount r) = true.
Proof.
  split; [ lia | ]. split; [ lia | ].
  apply (calculateFees_split_below_20000 1061); lia.
Defined.

End EngineExtras.

(** ** The environment helpers and the configuration read from them *)

Module EnvFacts.

Import Stdlib.Strings.String Env StripeConfig.
Local Open Scope string_scope.

Lemma truthy_str_nonempty v :
  truthy_str v = true -> exists s, v = Some s /\ s <> "".
Proof.
  destruct v as [s|]; cbn; [ | discriminate ].
  destruct (String.eqb_spec s ""); [ discriminate | eauto ].
Qed.

(** X9: for the fee percentage [getEnv] never gives [undefined] or an empty
    string, whatever the environment and the fallback: it gives the
    variable when it is set and not empty, and the table's default "15"
    otherwise.  The fallback argument and the [|| '15'] of the caller are
    never used. *)
Theorem getEnv_fee_percent_total (env : ProcessEnv) (fallback : option String.string) :
  exists v,
    getEnv env "STRIPE_APPLICATION_FEE_PERCENT" fallback = Some v /\ v <> "" /\
    (env "STRIPE_APPLICATION_FEE_PERCENT" = Some v
     \/ (truthy_str (env "STRIPE_APPLICATION_FEE_PERCENT") = false /\ v = "15")) /\
    or_else (getEnv env "STRIPE_APPLICATION_FEE_PERCENT" fallback) "15" = v.
Proof.
  unfold getEnv.
  destruct (truthy_str (env "STRIPE_APPLICATION_FEE_PERCENT")) eqn:T.
  - destruct (truthy_str_nonempty _ T) as (s & E & N). exists s. rewrite E.
    repeat split; auto. cbn. destruct (String.eqb_spec s ""); congruence.
  - exists "15". cbn. repeat split; auto. discriminate.
Qed.

(** X10: when [STRIPE_APPLICATION_FEE_PERCENT] is unset or empty the
    platform fee percentage is 15. *)
Theorem PLATFORM_FEE_PERCENTAGE_default (env : ProcessEnv) :
  truthy_str (env "STRIPE_APPLICATION_FEE_PERCENT") = false ->
  PLATFORM_FEE_PERCENTAGE env = DEFAULT_PLATFORM_FEE_PERCENTAGE.
Proof.
  intros T. unfold PLATFORM_FEE_PERCENTAGE, getEnv. rewrite T. cbn.
  vm_compute. reflexivity.
Qed.

Lemma PLATFORM_FEE_PERCENTAGE_default_witness :
  truthy_str ((fun _ => None) "STRIPE_APPLICATION_FEE_PERCENT") = false /\
  PLATFORM_FEE_PERCENTAGE (fun _ => None) = DEFAULT_PLATFORM_FEE_PERCENTAGE.
Proof.
  split; [ reflexivity | ].
  apply (PLATFORM_FEE_PERCENTAGE_default (fun _ => None)). reflexivity.
Defined.

(** X11: [validateEnv] reports [valid] exactly when each of the five
    required variables is set and not empty; [missing] holds exactly the
    required variables that are not, and [valid] implies
    [hasRequiredEnvVars]. *)
Theorem validateEnv_spec (env : ProcessEnv) :
  (valid (validateEnv env) = true <->
   forall k, In k (map fst REQUIRED_ENV_VARS) -> truthy_str (env k) = true) /\
  (forall k, In k (missing (validateEnv env)) <->
             In k (map fst REQUIRED_ENV_VARS) /\ truthy_str (env k) = false) /\
  (valid (validateEnv env) = true -> hasRequiredEnvVars env = true).
Proof.
  assert (M : forall k, In k (missing (validateEnv env)) <->
                        In k (map fst REQUIRED_ENV_VARS) /\ truthy_str (env k) = false).
  { intros k. unfold validateEnv. cbn [missing]. rewrite filter_In.
    rewrite negb_true_iff. reflexivity. }
  assert (V : valid (validateEnv env) = true <->
              forall k, In k (map fst REQUIRED_ENV_VARS) -> truthy_str (env k) = true).
  { unfold validateEnv. cbn [valid missing].
    rewrite Nat.eqb_eq, length_zero_iff_nil. split.
    - intros E k Hk. destruct (truthy_str (env k)) eqn:T; [ reflexivity | exfalso ].
      assert (I : In k (missing (validateEnv env))) by (apply M; auto).
      unfold validateEnv in I. cbn [missing] in I. rewrite E in I. exact I.
    - intros A.
      destruct (filter _ _) as [|k r] eqn:F; [ reflexivity | exfalso ].
      assert (I : In k (missing (validateEnv env))).
      { unfold validateEnv. cbn [missing]. rewrite F. left. reflexivity. }
      apply M in I. destruct I as [I T].
      rewrite (A k I) in T. discriminate. }
  split; [ exact V | split; [ exact M | ] ].
  intros Hv. rewrite V in Hv. unfold hasRequiredEnvVars.
  rewrite !Hv; [ reflexivity | cbn; auto | cbn; auto ].
Qed.

(** X12: the three readings of [NODE_ENV] agree: [isDevelopment] holds
    exactly when [getEnvironment] is "development", [isProduction] exactly
    when it is "production", and never both. *)
Theorem node_env_readings_agree (env : ProcessEnv) :
  isDevelopment env = String.eqb (getEnvironment env) "development" /\
  isProduction env = String.eqb (getEnvironment env) "production" /\
  (isProduction env = true -> isDevelopment env = false).
Proof.
  unfold isDevelopment, isProduction, getEnvironment, or_else, truthy_str.
  destruct (env "NODE_ENV") as [s|]; [ | repeat split; discriminate ].
  destruct (String.eqb_spec s "") as [->|N]; [ repeat split; discriminate | ].
  cbn [negb]. rewrite orb_false_r.
  repeat split.
  destruct (String.eqb_spec s "production") as [->|]; [ reflexivity | discriminate ].
Qed.

(** X13: on the server [isBuildTime] is the negation of
    [hasRequiredEnvVars]; in a browser it is false; a valid environment is
    never build time. *)
Theorem isBuildTime_spec (env : ProcessEnv) :
  isBuildTime false env = negb (hasRequiredEnvVars env) /\
  isBuildTime true env = false /\
  (valid (validateEnv env) = true -> forall hasWindow, isBuildTime hasWindow env = false).
Proof.
  unfold isBuildTime, hasRequiredEnvVars.
  repeat split.
  - cbn [negb andb]. rewrite negb_andb. reflexivity.
  - intros Hv hw. destruct (validateEnv_spec env) as (V & _ & _).
    rewrite V in Hv.
    rewrite !Hv; [ destruct hw; reflexivity | cbn; auto | cbn; auto ].
Qed.

(** X14: the exported check [isStripeInitialized] answers true for every
    environment: without [STRIPE_SECRET_KEY] the client is created with the
    placeholder key and the check still passes. *)
Theorem isStripeInitialized_always (env : ProcessEnv) :
  isStripeInitialized (initStripe env) = true /\
  (truthy_str (env "STRIPE_SECRET_KEY") = false ->
   initStripe env = Some {| apiKey := "sk_test_placeholder" |}).
Proof.
  unfold initStripe. destruct (truthy_str (env "STRIPE_SECRET_KEY")); split;
    try reflexivity; discriminate.
Qed.

End EnvFacts.

(** ** The fee percentage read from the environment, in the engine *)

Module ConfigFacts.

Import Stdlib.Strings.String Env StripeConfig.
Local Open Scope string_scope.

(** X15: the percentage is not validated: when
    [STRIPE_APPLICATION_FEE_PERCENT] is set to text [parseInt] cannot
    read, [PLATFORM_FEE_PERCENTAGE] is [NaN] (the default 15 is not used)
    and [calculateFees] returns [NaN] for both shares of every amount. *)
Theorem unreadable_fee_percent_gives_nan_split (env : ProcessEnv) (v : String.string) :
  env "STRIPE_APPLICATION_FEE_PERCENT" = Some v -> v <> "" ->
  parseInt10 v = nan ->
  PLATFORM_FEE_PERCENTAGE env = nan /\
  forall amount,
    calculateFees (PLATFORM_FEE_PERCENTAGE env) amount
    = {| platformFee := nan; instructorAmount := nan |}.
Proof.
  intros E N P.
  assert (Q : PLATFORM_FEE_PERCENTAGE env = nan).
  { unfold PLATFORM_FEE_PERCENTAGE, getEnv. rewrite E. cbn [truthy_str or_else].
    destruct (String.eqb_spec v "") as [F|_]; [ contradiction | ].
    cbn [negb or_else].
    destruct (String.eqb_spec v "") as [F|_]; [ contradiction | exact P ]. }
  split; [ exact Q | ]. intros amount. rewrite Q.
  apply EngineExtras.calculateFees_nan_percentage.
Qed.

Lemma unreadable_fee_percent_gives_nan_split_witness :
  let env : ProcessEnv :=
    fun k => if String.eqb k "STRIPE_APPLICATION_FEE_PERCENT" then Some "fifteen" else None in
  PLATFORM_FEE_PERCENTAGE env = nan /\
  forall amount,
    calculateFees (PLATFORM_FEE_PERCENTAGE env) amount
    = {| platformFee := nan; instructorAmount := nan |}.
Proof.
  intros env.
  apply (unreadable_fee_percent_gives_nan_split env "fifteen").
  - reflexivity.
  - discriminate.
  - vm_compute. reflexivity.
Defined.

End ConfigFacts.

(** ** [requireAdmin] and [getRole] *)

Module AuthFacts.

Import Stdlib.Strings.String Env Auth.
Local Open Scope string_scope.

(** X16: [requireAdmin] returns, rather than redirects, exactly at build
    time or when there is a session and the user's row, read without error,
    has the role "admin"; the context it returns always has that role. *)
Theorem requireAdmin_returns_iff hasWindow env session q :
  ((exists c, requireAdmin hasWindow env session q = Returns c) <->
   isBuildTime hasWindow env = true
   \/ (exists u, session = Some u /\ error q = false /\ data q = Some (Some "admin"))) /\
  (forall c, requireAdmin hasWindow env session q = Returns c -> role c = Some "admin").
Proof.
  unfold requireAdmin.
  destruct (isBuildTime hasWindow env).
  - split; [ split; eauto | ]. intros c E. inversion E. reflexivity.
  - destruct session as [u|].
    + destruct q as [[[r|]|] [|]]; cbn [error data];
        try (split; [ split; [ intros [c E]; discriminate
                              | intros [F|(u' & _ & A & B)]; discriminate ]
                    | intros c E; discriminate ]).
      destruct (String.eqb_spec r "admin") as [->|N].
      * split; [ split; eauto 6 | ]. intros c E. inversion E. reflexivity.
      * split; [ split | intros c E; discriminate ].
        -- intros [c E]. discriminate.
        -- intros [F|(u' & _ & _ & B)]; [ discriminate | ].
           inversion B. contradiction.
    + split; [ split | intros c E; discriminate ].
      * intros [c E]. discriminate.
      * intros [F|(u' & A & _)]; discriminate.
Qed.

(** X17: at build time (on the server, with a Supabase variable unset or
    empty) [requireAdmin] hands out the fixed admin context to every
    caller, with or without a session, while [getRole] reports "user". *)
Theorem build_time_admin hasWindow env session q :
  isBuildTime hasWindow env = true ->
  requireAdmin hasWindow env session q
    = Returns {| user := {| id := "build-time-user-id";
                            email := Some "build@example.com" |};
                 role := Some "admin" |} /\
  getRole hasWindow env session q = Some "user".
Proof.
  intros B. unfold requireAdmin, getRole. rewrite B. split; reflexivity.
Qed.

Lemma build_time_admin_witness :
  isBuildTime false (fun _ => None) = true /\
  requireAdmin false (fun _ => None) None {| data := None; error := true |}
    = Returns {| user := {| id := "build-time-user-id";
                            email := Some "build@example.com" |};
                 role := Some "admin" |} /\
  getRole false (fun _ => None) None {| data := None; error := true |} = Some "user".
Proof.
  split; [ reflexivity | ].
  apply (build_time_admin false (fun _ => None) None {| data := None; error := true |}).
  reflexivity.
Defined.

(** X18: outside build time the two functions agree: [getRole] reports
    "admin" exactly when [requireAdmin] returns. *)
Theorem getRole_admin_iff_requireAdmin hasWindow env session q :
  isBuildTime hasWindow env = false ->
  (getRole hasWindow env session q = Some "admin" <->
   exists c, requireAdmin hasWindow env session q = Returns c).
Proof.
  intros B. unfold requireAdmin, getRole. rewrite B.
  destruct session as [u|]; [ | split; [ discriminate | intros [c E]; discriminate ] ].
  destruct q as [[[r|]|] [|]]; cbn [error data];
    try (split; [ discriminate | intros [c E]; discriminate ]).
  destruct (String.eqb_spec r "admin") as [->|N].
  - split; eauto.
  - split; [ intros E; inversion E; contradiction | intros [c E]; discriminate ].
Qed.

Lemma getRole_admin_iff_requireAdmin_witness :
  let env : ProcessEnv := fun _ => Some "x" in
  let u := {| id := "u1"; email := None |} in
  let q := {| data := Some (Some "admin"); error := false |} in
  isBuildTime false env = false /\
  (getRole false env (Some u) q = Some "admin" <->
   exists c, requireAdmin false env (Some u) q = Returns c).
Proof.
  split; [ reflexivity | ].
  apply (getRole_admin_iff_requireAdmin false (fun _ => Some "x")
           (Some {| id := "u1"; email := None |})
           {| data := Some (Some "admin"); error := false |}).
  reflexivity.
Defined.

End AuthFacts.

(** ** [POST /api/checkout-lesson] *)

Module CheckoutRouteFacts.

Import Stdlib.Strings.String Env Flow CheckoutRoute.
Local Open Scope string_scope.

(** A price never differs from itself by more than a cent: [x - x] is [0],
    or [NaN] for an infinite [x], and neither is above [0.01]. *)
Lemma price_mismatch_same (x : number) : price_mismatch x x = false.
Proof.
  unfold price_mismatch.
  rewrite FloatAxioms.ltb_spec, FloatAxioms.abs_spec, FloatAxioms.sub_spec.
  unfold SF64sub, SFsub.
  destruct (Prim2SF x) as [[|]|[|]| |s m e]; try reflexivity.
  rewrite Z.sub_diag. destruct s; reflexivity.
Qed.

Ltac route_cases H :=
  repeat match type of H with
         | context [match ?x with _ => _ end] => destruct x eqn:?
         end.


(** X19: the [isFree] field of the request decides, not the lesson's
    price: a signed-in user who posts the price the lesson has, with
    [isFree] set, gets the lesson recorded as a free purchase of amount 0
    and answered with 200, and no call to Stripe is made, whatever the
    price is.  (The instructor needs an account id; the account need not
    be enabled.) *)
Theorem isFree_flag_records_free_access pct w userId b lid l p :
  session_user w = Some userId ->
  body w = Ok b -> lessonId b = Some lid -> lid <> "" ->
  lesson w = Some l -> lesson_price l = Some (price b) ->
  isFree b = true ->
  profile w = Some p -> truthy_str (stripe_account_id p) = true ->
  existing_purchase w = false -> insert_error w = None ->
  run (POST pct w)
  = ({| status := 200; payload := SuccessBody lid |},
     PurchaseInsert (purchaseData w userId lid) :: nil).
Proof.
  intros Hs Hb Hl Hn Hle Hp Hf Hpr Ha He Hi.
  unfold POST. rewrite Hs.
  unfold run, bind, await. rewrite Hb. unfold ret. rewrite Hl.
  destruct (String.eqb_spec lid "") as [E|_]; [ contradiction | ].
  rewrite Hle. cbv zeta. rewrite Hp, price_mismatch_same.
  unfold getInstructorStripeAccountId. rewrite Hpr, Hf, orb_true_r, Ha.
  cbn [negb]. unfold recordFreeLessonAccess. rewrite He, Hi.
  reflexivity.
Qed.

Lemma isFree_flag_records_free_access_witness :
  let l := {| stripe_product_id := Some "prod_1"; stripe_price_id := Some "price_1";
              instructor_id := Some "teacher"; lesson_price := Some 49.99%float |} in
  let p := {| stripe_account_id := Some "acct_1"; stripe_account_enabled := false |} in
  let b := {| lessonId := Some "lesson-1"; price := 49.99%float; title := "Kendama";
              isFree := true |} in
  let w := {| env := fun _ => None; session_user := Some "student"; body := Ok b;
              lesson := Some l; profile := Some p; existing_purchase := false;
              column_exists := true; insert_error := None; now := "1700000000000";
              new_product := Ok "prod_2"; new_price := Ok "price_2"; update_error := false;
              checkout_product := Ok "prod_3"; checkout_price := Ok "price_3";
              checkout_session := Ok (Some "https://checkout.stripe.com/c/pay") |} in
  run (POST DEFAULT_PLATFORM_FEE_PERCENTAGE w)
  = ({| status := 200; payload := SuccessBody "lesson-1" |},
     PurchaseInsert (purchaseData w "student" "lesson-1") :: nil).
Proof.
  intros l p b w.
  apply (isFree_flag_records_free_access DEFAULT_PLATFORM_FEE_PERCENTAGE w
           "student" b "lesson-1" l p); try reflexivity.
  discriminate.
Defined.


Ltac case_step :=
  match goal with
  | |- context [match ?x with _ => _ end] =>
      lazymatch x with
      | context [match _ with _ => _ end] => fail
      | _ => destruct x eqn:?
      end
  end.

Ltac unfold_route :=
  cbv [POST run bind ret respond emit json throw await createStripeProduct
       recordFreeLessonAccess getInstructorStripeAccountId].

(** X20: an answer with a 4xx status means nothing was written: no call
    to Stripe was issued and no row inserted or updated. *)
Theorem client_error_writes_nothing pct w :
  (400 <= status (fst (run (POST pct w))) < 500)%Z ->
  snd (run (POST pct w)) = nil.
Proof.
  unfold_route.
  repeat (case_step; cbv beta iota);
    cbn [fst snd status]; intros H; try reflexivity; exfalso; lia.
Qed.

Lemma client_error_writes_nothing_witness :
  let w := {| env := fun _ => None; session_user := None; body := Throws "";
              lesson := None; profile := None; existing_purchase := false;
              column_exists := true; insert_error := None; now := "1700000000000";
              new_product := Ok "prod_2"; new_price := Ok "price_2"; update_error := false;
              checkout_product := Ok "prod_3"; checkout_price := Ok "price_3";
              checkout_session := Ok None |} in
  snd (run (POST DEFAULT_PLATFORM_FEE_PERCENTAGE w)) = nil.
Proof.
  intros w. apply (client_error_writes_nothing DEFAULT_PLATFORM_FEE_PERCENTAGE w).
  vm_compute. split; [ discriminate | reflexivity ].
Defined.


Ltac in_cases H :=
  cbn [app In] in H;
  repeat match type of H with
         | _ \/ _ => destruct H as [H|H]
         end.

Ltac tidy_guards :=
  repeat match goal with
         | G : orb _ _ = false |- _ => apply orb_false_elim in G; destruct G
         | G : negb _ = false |- _ => apply negb_false_iff in G
         | G : negb _ = true |- _ => apply negb_true_iff in G
         end.

(** X21: a call to Stripe or an update of the lesson is issued only on
    the paid path: the caller is signed in, the lesson exists, the price
    sent is within a cent of the lesson's, that price is not 0 and the
    request does not say [isFree], and the instructor has an account id
    and the account is enabled. *)
Theorem stripe_calls_only_on_paid_path pct w e :
  In e (snd (run (POST pct w))) -> (forall row, e <> PurchaseInsert row) ->
  exists userId b l p,
    session_user w = Some userId /\ body w = Ok b /\ lesson w = Some l /\
    profile w = Some p /\
    price_mismatch (price_or_zero (lesson_price l)) (price_or_zero (Some (price b))) = false /\
    (price_or_zero (lesson_price l) =? 0)%float = false /\ isFree b = false /\
    truthy_str (stripe_account_id p) = true /\ stripe_account_enabled p = true.
Proof.
  unfold_route.
  repeat (case_step; cbv beta iota); cbn [fst snd]; intros H NP; in_cases H;
    try contradiction; subst;
    try (exfalso; eapply NP; reflexivity);
    tidy_guards; cbn [truthy_str negb] in *; try discriminate;
    do 4 eexists; repeat split; try reflexivity; eassumption.
Qed.


Lemma stripe_calls_only_on_paid_path_witness :
  let l := {| stripe_product_id := Some "prod_1"; stripe_price_id := Some "price_1";
              instructor_id := Some "teacher"; lesson_price := Some 19.99%float |} in
  let p := {| stripe_account_id := Some "acct_1"; stripe_account_enabled := true |} in
  let b := {| lessonId := Some "lesson-1"; price := 19.99%float; title := "Kendama";
              isFree := false |} in
  let w := {| env := fun _ => None; session_user := Some "student"; body := Ok b;
              lesson := Some l; profile := Some p; existing_purchase := false;
              column_exists := true; insert_error := None; now := "1700000000000";
              new_product := Ok "prod_2"; new_price := Ok "price_2"; update_error := false;
              checkout_product := Ok "prod_3"; checkout_price := Ok "price_3";
              checkout_session := Ok (Some "https://checkout.stripe.com/c/pay") |} in
  exists userId b l p,
    session_user w = Some userId /\ body w = Ok b /\ lesson w = Some l /\
    profile w = Some p /\
    price_mismatch (price_or_zero (lesson_price l)) (price_or_zero (Some (price b))) = false /\
    (price_or_zero (lesson_price l) =? 0)%float = false /\ isFree b = false /\
    truthy_str (stripe_account_id p) = true /\ stripe_account_enabled p = true.
Proof.
  intros l p b w.
  apply (stripe_calls_only_on_paid_path DEFAULT_PLATFORM_FEE_PERCENTAGE w
           (StripeProductCreate "Kendama" "Kendama (includes processing fees)")).
  - vm_compute. left. reflexivity.
  - intros row. discriminate.
Defined.

(** X22: the only row the route inserts is the free-access row of
    [recordFreeLessonAccess], of amount 0, for the signed-in user; it is
    inserted only when the lesson's price is 0 or the request says
    [isFree], the instructor has an account id and the purchase is not
    recorded yet.  A paid purchase is never recorded by this route. *)
Theorem insert_is_free_access pct w row :
  In (PurchaseInsert row) (snd (run (POST pct w))) ->
  exists userId b lid l p,
    session_user w = Some userId /\ body w = Ok b /\ lessonId b = Some lid /\
    lesson w = Some l /\ profile w = Some p /\
    row = purchaseData w userId lid /\
    ((price_or_zero (lesson_price l) =? 0)%float = true \/ isFree b = true) /\
    truthy_str (stripe_account_id p) = true /\ existing_purchase w = false.
Proof.
  unfold_route.
  repeat (case_step; cbv beta iota); cbn [fst snd]; intros H; in_cases H;
    try contradiction; try discriminate;
    inversion H; subst;
    tidy_guards; cbn [truthy_str negb] in *; try discriminate;
    do 5 eexists; repeat split; try reflexivity; try eassumption;
    apply orb_prop; assumption.
Qed.

Lemma insert_is_free_access_witness :
  let l := {| stripe_product_id := None; stripe_price_id := None;
              instructor_id := Some "teacher"; lesson_price := Some 0%float |} in
  let p := {| stripe_account_id := Some "acct_1"; stripe_account_enabled := false |} in
  let b := {| lessonId := Some "lesson-1"; price := 0%float; title := "Kendama";
              isFree := true |} in
  let w := {| env := fun _ => None; session_user := Some "student"; body := Ok b;
              lesson := Some l; profile := Some p; existing_purchase := false;
              column_exists := true; insert_error := None; now := "1700000000000";
              new_product := Ok "prod_2"; new_price := Ok "price_2"; update_error := false;
              checkout_product := Ok "prod_3"; checkout_price := Ok "price_3";
              checkout_session := Ok None |} in
  exists userId b lid l p,
    session_user w = Some userId /\ body w = Ok b /\ lessonId b = Some lid /\
    lesson w = Some l /\ profile w = Some p /\
    purchaseData w "student" "lesson-1" = purchaseData w userId lid /\
    ((price_or_zero (lesson_price l) =? 0)%float = true \/ isFree b = true) /\
    truthy_str (stripe_account_id p) = true /\ existing_purchase w = false.
Proof.
  intros l p b w.
  apply (insert_is_free_access DEFAULT_PLATFORM_FEE_PERCENTAGE w
           (purchaseData w "student" "lesson-1")).
  vm_compute. left. reflexivity.
Defined.

(** X23: what the checkout session is created with: the line item is the
    price created just before for the fee-inclusive charge
    [Math.round(calculatePriceWithStripeFees(price * 100) / 100 * 100)];
    the application fee and the instructor amount of the metadata are the
    two shares [calculateFees] gives for [Math.round(price * 100)], the
    price before fees; the transfer goes to the instructor's account. *)
Theorem checkout_session_request pct w req :
  In (StripeSessionCreate req) (snd (run (POST pct w))) ->
  exists userId b lid p product,
    session_user w = Some userId /\ body w = Ok b /\ lessonId b = Some lid /\
    profile w = Some p /\
    checkout_product w = Ok product /\ checkout_price w = Ok (line_item_price req) /\
    In (StripePriceCreate product (Checkout.priceWithFeesInCents (price b)))
       (snd (run (POST pct w))) /\
    application_fee_amount req
      = platformFee (calculateFees pct (Checkout.priceInCents (price b))) /\
    meta_instructorPayoutAmount req
      = instructorAmount (calculateFees pct (Checkout.priceInCents (price b))) /\
    transfer_destination req = interpolate (stripe_account_id p) /\
    meta_userId req = userId /\ meta_lessonId req = lid.
Proof.
  unfold_route.
  repeat (case_step; cbv beta iota); cbn [fst snd]; intros H; in_cases H;
    try contradiction; try discriminate;
    inversion H; subst;
    do 5 eexists; repeat split; try reflexivity;
    cbn [app In]; tauto.
Qed.

Lemma checkout_session_request_witness :
  let l := {| stripe_product_id := Some "prod_1"; stripe_price_id := Some "price_1";
              instructor_id := Some "teacher"; lesson_price := Some 10%float |} in
  let p := {| stripe_account_id := Some "acct_1"; stripe_account_enabled := true |} in
  let b := {| lessonId := Some "lesson-1"; price := 10%float; title := "Kendama";
              isFree := false |} in
  let w := {| env := fun _ => None; session_user := Some "student"; body := Ok b;
              lesson := Some l; profile := Some p; existing_purchase := false;
              column_exists := true; insert_error := None; now := "1700000000000";
              new_product := Ok "prod_2"; new_price := Ok "price_2"; update_error := false;
              checkout_product := Ok "prod_3"; checkout_price := Ok "price_3";
              checkout_session := Ok (Some "https://checkout.stripe.com/c/pay") |} in
  exists req,
    In (StripeSessionCreate req) (snd (run (POST DEFAULT_PLATFORM_FEE_PERCENTAGE w))) /\
    application_fee_amount req = 150%float /\
    In (StripePriceCreate "prod_3" 1061) (snd (run (POST DEFAULT_PLATFORM_FEE_PERCENTAGE w))).
Proof.
  intros l p b w.
  assert (S : exists req,
             In (StripeSessionCreate req)
                (snd (run (POST DEFAULT_PLATFORM_FEE_PERCENTAGE w)))).
  { vm_compute. eexists. right. right. left. reflexivity. }
  destruct S as [req S]. exists req. split; [ exact S | ].
  destruct (checkout_session_request DEFAULT_PLATFORM_FEE_PERCENTAGE w req S)
    as (userId & b' & lid & p' & product & _ & B & _ & _ & CP & _ & I & A & _).
  injection B as <-. injection CP as <-.
  split; [ rewrite A; vm_compute; reflexivity | ].
  vm_compute. right. left. reflexivity.
Defined.

End CheckoutRouteFacts.

(** ** [GET /api/verify-lesson-purchase] *)

Module VerifyRouteFacts.

Import Stdlib.Strings.String Env Flow VerifyRoute.
Local Open Scope string_scope.

Ltac case_step :=
  match goal with
  | |- context [match ?x with _ => _ end] =>
      lazymatch x with
      | context [match _ with _ => _ end] => fail
      | _ => destruct x eqn:?
      end
  end.

Ltac unfold_route :=
  cbv [GET freeBranch paidBranch run bind ret respond emit json throw await].

Ltac in_cases H :=
  cbn [app In] in H;
  repeat match type of H with
         | _ \/ _ => destruct H as [H|H]
         end.

Ltac tidy_guards :=
  repeat match goal with
         | G : orb _ _ = false |- _ => apply orb_false_elim in G; destruct G
         | G : andb _ _ = true |- _ => apply andb_prop in G; destruct G
         | G : negb _ = false |- _ => apply negb_false_iff in G
         | G : negb _ = true |- _ => apply negb_true_iff in G
         end.










End VerifyRouteFacts.
